(** * Verification model of [src/parser.py] (UzbekCourtAPIParser)

    Shallow embedding of the rate controller ([_check_rate_limits],
    [_adaptive_delay]), the old/new record normalizer
    ([parse_decision_from_json]), the attachment batch
    ([_download_pdfs_batch], [save_decision_with_text]) and the page loop of
    [parse_all_decisions].

    Modelling conventions:
    - Python floats of the rate controller are modelled by exact rationals [Q]
      (0.1, 1.5, 0.9, 2.0, 10.0 are the rationals they denote).
    - Python [str] values are modelled by Rocq [string] (ASCII characters).
    - JSON numbers are integers ([JInt]); JSON floats are not modelled.
    - Network answers, attachment outcomes and the local time zone are
      inputs of the model (an environment record). *)

From Stdlib Require Import QArith Qpower ZArith Lia Lqa.
From stdpp Require Import base list gmap strings options.
From Stdlib Require Import Ascii String.

Open Scope Z_scope.

(* ------------------------------------------------------------------ *)
(** ** Python string helpers *)
(* ------------------------------------------------------------------ *)

Module PyStr.

(** [str.lower] on ASCII letters (requests' header dict is case-insensitive). *)
Definition lower_char (c : ascii) : ascii :=
  let n := nat_of_ascii c in
  if (65 <=? n)%nat && (n <=? 90)%nat then ascii_of_nat (n + 32) else c.

Fixpoint lower (s : string) : string :=
  match s with
  | EmptyString => EmptyString
  | String c s' => String (lower_char c) (lower s')
  end.

Definition is_digit (c : ascii) : bool :=
  let n := nat_of_ascii c in (48 <=? n)%nat && (n <=? 57)%nat.

Definition digit_val (c : ascii) : Z := Z.of_nat (nat_of_ascii c - 48).

(** Whitespace stripped by [int()] among the code points below 256: \t \n
    \v \f \r, space, \x85 and \xa0.  [int()] maps the non-ASCII
    whitespace to a space and then skips ASCII whitespace only, so the
    separators \x1c..\x1f, which [str.isspace] accepts, are not stripped.
    Header values are decoded as Latin-1. *)
Definition is_space (c : ascii) : bool :=
  let n := nat_of_ascii c in
  (n =? 32)%nat || ((9 <=? n)%nat && (n <=? 13)%nat) || (n =? 133)%nat || (n =? 160)%nat.

Fixpoint strip_left (s : string) : string :=
  match s with
  | String c s' => if is_space c then strip_left s' else s
  | EmptyString => EmptyString
  end.

Fixpoint rev_str (s acc : string) : string :=
  match s with
  | EmptyString => acc
  | String c s' => rev_str s' (String c acc)
  end.

Definition strip (s : string) : string :=
  rev_str (strip_left (rev_str (strip_left s) EmptyString)) EmptyString.

(** Digits of a decimal literal, single underscores allowed between digits.
    [acc] is the value so far, [prev_digit] whether the last char was a digit. *)
Fixpoint digits_val (s : string) (acc : Z) (prev_digit : bool) : option Z :=
  match s with
  | EmptyString => if prev_digit then Some acc else None
  | String c s' =>
      if is_digit c then digits_val s' (10 * acc + digit_val c) true
      else if Ascii.eqb c "_"%char && prev_digit then digits_val s' acc false
      else None
  end.

(** [int(s)] on a string: [None] models the [ValueError]. *)
Definition py_int (s : string) : option Z :=
  match strip s with
  | String c s' =>
      if Ascii.eqb c "-"%char then option_map Z.opp (digits_val s' 0 false)
      else if Ascii.eqb c "+"%char then digits_val s' 0 false
      else digits_val (String c s') 0 false
  | EmptyString => None
  end.

End PyStr.

(* ------------------------------------------------------------------ *)
(** ** RateController: [RateLimitInfo], [_check_rate_limits], [_adaptive_delay] *)
(* ------------------------------------------------------------------ *)

Module Rate.

Open Scope Q_scope.

(** [@dataclass RateLimitInfo] *)
Record rate_limit := {
  is_limited : bool;
  retry_after : option Z;
  current_delay : Q;
  consecutive_errors : Z;
  last_request_time : option Q
}.

(** [RateLimitInfo()] defaults. *)
Definition initial : rate_limit := {|
  is_limited := false; retry_after := None; current_delay := 3 # 2;
  consecutive_errors := 0; last_request_time := None |}.

(** Settings of [UzbekCourtAPIParser.__init__]. *)
Definition min_delay : Q := 1 # 10.
Definition max_delay : Q := 10.
Definition backoff_factor : Q := 3 # 2.

Definition Qmin (a b : Q) : Q := if Qle_bool a b then a else b.
Definition Qmax (a b : Q) : Q := if Qle_bool b a then a else b.

(** An HTTP response as the controller sees it. *)
Record response := { status_code : Z; headers : list (string * string) }.

(** [response.headers.get(name)]: case-insensitive lookup, [None] if absent. *)
Fixpoint header_get (hs : list (string * string)) (name : string) : option string :=
  match hs with
  | [] => None
  | (k, v) :: hs' =>
      if String.eqb (PyStr.lower k) (PyStr.lower name) then Some v
      else header_get hs' name
  end.

(** Python truthiness of an [Optional[str]]. *)
Definition truthy_str (o : option string) : bool :=
  match o with Some s => negb (String.eqb s "") | None => false end.

Definition set_delay (st : rate_limit) (d : Q) : rate_limit :=
  {| is_limited := is_limited st; retry_after := retry_after st;
     current_delay := d; consecutive_errors := consecutive_errors st;
     last_request_time := last_request_time st |}.

Definition bump_errors (st : rate_limit) : rate_limit :=
  {| is_limited := is_limited st; retry_after := retry_after st;
     current_delay := current_delay st; consecutive_errors := consecutive_errors st + 1;
     last_request_time := last_request_time st |}.

(** The remaining-quota header analysis at the end of [_check_rate_limits]. *)
Definition remaining_header (r : response) : option string :=
  let a := header_get (headers r) "X-RateLimit-Remaining" in
  if truthy_str a then a else header_get (headers r) "X-Rate-Limit-Remaining".

Definition analyse_remaining (r : response) (st : rate_limit) : rate_limit :=
  let rem := remaining_header r in
  if truthy_str rem then
    match PyStr.py_int (default "" rem) with
    | Some n => if (n <? 10)%Z then set_delay st (Qmax (current_delay st) 2) else st
    | None => st
    end
  else st.

(** [_check_rate_limits(response)]: returns the boolean result and the new state. *)
Definition check_rate_limits (r : response) (st : rate_limit) : bool * rate_limit :=
  if (status_code r =? 429)%Z then
    let st1 := bump_errors {| is_limited := true; retry_after := retry_after st;
                 current_delay := current_delay st;
                 consecutive_errors := consecutive_errors st;
                 last_request_time := last_request_time st |} in
    let ra := header_get (headers r) "Retry-After" in
    let backoff := set_delay st1 (Qmin (current_delay st1 * backoff_factor) max_delay) in
    if truthy_str ra then
      match PyStr.py_int (default "" ra) with
      | Some n =>
          (false, {| is_limited := is_limited st1; retry_after := Some n;
                     current_delay := current_delay st1;
                     consecutive_errors := consecutive_errors st1;
                     last_request_time := last_request_time st1 |})
      | None => (false, backoff)
      end
    else (false, backoff)
  else if (status_code r =? 502)%Z || (status_code r =? 503)%Z || (status_code r =? 504)%Z then
    let st1 := bump_errors st in
    (false, set_delay st1 (Qmin (current_delay st1 * (3 # 2)) max_delay))
  else
    let st1 :=
      if (status_code r =? 200)%Z then
        if (0 <? consecutive_errors st)%Z then
          set_delay {| is_limited := is_limited st; retry_after := retry_after st;
                       current_delay := current_delay st; consecutive_errors := 0;
                       last_request_time := last_request_time st |}
                    (Qmax (current_delay st * (9 # 10)) min_delay)
        else st
      else st in
    (true, analyse_remaining r st1).

(** The [except requests.exceptions.RequestException] branch of
    [get_decisions_list] / [download_pdf_and_extract_text]. *)
Definition transport_failure (st : rate_limit) : rate_limit :=
  let st1 := bump_errors st in
  set_delay st1 (Qmin (current_delay st1 * (3 # 2)) max_delay).

(** What the controller observes: an HTTP response or a transport failure. *)
Inductive observation := Obs_response (r : response) | Obs_transport_failure.

Definition observe (o : observation) (st : rate_limit) : rate_limit :=
  match o with
  | Obs_response r => snd (check_rate_limits r st)
  | Obs_transport_failure => transport_failure st
  end.

(** Result of [_adaptive_delay]: the duration passed to [time.sleep], and
    either the new state or the [ValueError] that [time.sleep] raises on a
    negative duration (raised before the state updates that follow it). *)
Inductive delay_result :=
  | Slept (d : Q) (st : rate_limit)
  | Sleep_error (d : Q) (st : rate_limit).

(** [_adaptive_delay()]; [base] is [self.delay], [now] is [time.time()].
    [if self.rate_limit.retry_after:] is a truthiness test on the int. *)
(** Python truthiness of an [Optional[int]]: [None] and [0] are false. *)
Definition truthy_int (o : option Z) : bool :=
  match o with Some n => negb (n =? 0)%Z | None => false end.

Definition adaptive_delay (base now : Q) (st : rate_limit) : delay_result :=
  let touch st' := {| is_limited := is_limited st'; retry_after := retry_after st';
                      current_delay := current_delay st';
                      consecutive_errors := consecutive_errors st';
                      last_request_time := Some now |} in
  if truthy_int (retry_after st) then
    let d := inject_Z (default 0%Z (retry_after st)) + (1 # 2) in
    if Qle_bool 0 d then
      Slept d (touch {| is_limited := false; retry_after := None;
                        current_delay := current_delay st;
                        consecutive_errors := consecutive_errors st;
                        last_request_time := last_request_time st |})
    else Sleep_error d st
  else if (0 <? consecutive_errors st)%Z then
    let d := current_delay st in
    if Qle_bool 0 d then Slept d (touch st) else Sleep_error d st
  else if Qle_bool 0 base then Slept base (touch st) else Sleep_error base st.

(** The states after each observation of a sequence. *)
Fixpoint trace (os : list observation) (st : rate_limit) : list rate_limit :=
  match os with
  | [] => []
  | o :: os' => let st' := observe o st in st' :: trace os' st'
  end.

Definition delay_in_bounds (st : rate_limit) : Prop :=
  min_delay <= current_delay st /\ current_delay st <= max_delay.

End Rate.

(* ------------------------------------------------------------------ *)
(** ** JSON values as [json.loads] returns them *)
(* ------------------------------------------------------------------ *)

Module Json.

Set Warnings "-register-all".

Inductive json :=
  | JNull
  | JBool (b : bool)
  | JInt (z : Z)
  | JStr (s : string)
  | JArr (l : list json)
  | JObj (kvs : list (string * json)).

(** [d[k]] on a dict decoded by [json.loads] (the last duplicate key wins);
    [None] models the [KeyError] / [TypeError]. *)
Fixpoint assoc_last (k : string) (kvs : list (string * json)) : option json :=
  match kvs with
  | [] => None
  | (k', v) :: kvs' =>
      match assoc_last k kvs' with
      | Some w => Some w
      | None => if String.eqb k k' then Some v else None
      end
  end.

Definition subscript (v : json) (k : string) : option json :=
  match v with JObj kvs => assoc_last k kvs | _ => None end.

(** [v.get(k, dflt)]: [None] models the [AttributeError] on a non-dict. *)
Definition get_default (v : json) (k : string) (dflt : json) : option json :=
  match v with
  | JObj kvs => Some (default dflt (assoc_last k kvs))
  | _ => None
  end.

Definition get (v : json) (k : string) : option json := get_default v k JNull.

(** Python truthiness. *)
Definition truthy (v : json) : bool :=
  match v with
  | JNull => false
  | JBool b => b
  | JInt z => negb (z =? 0)
  | JStr s => negb (String.eqb s "")
  | JArr l => negb (List.length l =? 0)%nat
  | JObj kvs => negb (List.length kvs =? 0)%nat
  end.

(** Decimal digits of a natural number ([str(int)]). *)
Definition digit_char (d : Z) : ascii := ascii_of_nat (48 + Z.to_nat d).

Fixpoint digits_rec (fuel : nat) (n : Z) (acc : string) : string :=
  match fuel with
  | O => acc
  | S f =>
      let acc' := String (digit_char (n mod 10)) acc in
      if n <? 10 then acc' else digits_rec f (n / 10) acc'
  end.

Definition digits (n : Z) : string := digits_rec (S (Z.to_nat (Z.log2 n))) n "".

Definition z_to_string (z : Z) : string :=
  if z <? 0 then String "-" (digits (- z)) else digits z.

Fixpoint zeros (n : nat) : string :=
  match n with O => "" | S n' => String "0" (zeros n') end.

(** [f"{n:0wd}"] for [n >= 0]. *)
Definition zero_pad (w : nat) (n : Z) : string :=
  let ds := digits n in (zeros (w - String.length ds) ++ ds)%string.

(** [f"{z:0wd}"]: the sign counts in the width. *)
Definition format_0d (w : nat) (z : Z) : string :=
  if z <? 0 then String "-" (zero_pad (w - 1) (- z)) else zero_pad w z.

Fixpoint concat_sep (sep : string) (l : list string) : string :=
  match l with
  | [] => ""
  | [x] => x
  | x :: l' => (x ++ sep ++ concat_sep sep l')%string
  end.

(** [str(v)] and [repr(v)]; strings inside containers are quoted without
    escaping, which is exact for strings without quotes, backslashes or
    control characters. *)
Fixpoint py_repr (v : json) : string :=
  match v with
  | JNull => "None"
  | JBool true => "True"
  | JBool false => "False"
  | JInt z => z_to_string z
  | JStr s => ("'" ++ s ++ "'")%string
  | JArr l => ("[" ++ concat_sep ", " (map py_repr l) ++ "]")%string
  | JObj kvs =>
      ("{" ++ concat_sep ", "
             (map (fun kv => "'" ++ fst kv ++ "': " ++ py_repr (snd kv)) kvs) ++ "}")%string
  end.

Definition py_str (v : json) : string :=
  match v with JStr s => s | _ => py_repr v end.

End Json.
Import Json.

(* ------------------------------------------------------------------ *)
(** ** [datetime.fromtimestamp(ms / 1000).isoformat()] *)
(* ------------------------------------------------------------------ *)

Module DateTime.

(** Proleptic Gregorian date of a day count since 1970-01-01. *)
Definition civil_from_days (days : Z) : Z * Z * Z :=
  let z := days + 719468 in
  let era := z / 146097 in
  let doe := z - era * 146097 in
  let yoe := (doe - doe / 1460 + doe / 36524 - doe / 146096) / 365 in
  let doy := doe - (365 * yoe + yoe / 4 - yoe / 100) in
  let mp := (5 * doy + 2) / 153 in
  let d := doy - (153 * mp + 2) / 5 + 1 in
  let m := if mp <? 10 then mp + 3 else mp - 9 in
  let y := yoe + era * 400 + (if m <=? 2 then 1 else 0) in
  (y, m, d).

(** Round half to even of [n / d] to an integer, for [d > 0]. *)
Definition round_half_even (n d : Z) : Z :=
  let q := n / d in
  let r := n mod d in
  if 2 * r <? d then q else if d <? 2 * r then q + 1 else if Z.even q then q else q + 1.

(** [floor (log2 (n / d))] for [n, d > 0]. *)
Definition log2_ratio (n d : Z) : Z :=
  let e := Z.log2 n - Z.log2 d in
  if 0 <=? e then (if d * 2 ^ e <=? n then e else e - 1)
  else (if d <=? n * 2 ^ (- e) then e else e - 1).

(** The IEEE-754 binary64 number nearest to [q] (ties to even), as an exact
    rational; [None] is the [OverflowError] of a result of magnitude 2^1024
    or more.  Below 2^-1022 the spacing of subnormal numbers is kept. *)
Definition to_double (q : Q) : option Q :=
  let n := Qnum q in
  let d := Zpos (Qden q) in
  if n =? 0 then Some 0%Q else
  let a := Z.abs n in
  let e := Z.max (log2_ratio a d) (-1022) in
  let k := 52 - e in
  let m := if 0 <=? k then round_half_even (a * 2 ^ k) d
           else round_half_even a (d * 2 ^ (- k)) in
  let v := if 0 <=? k then Qmake m (Z.to_pos (2 ^ k)) else inject_Z (m * 2 ^ (- k)) in
  if Qle_bool (inject_Z (2 ^ 1024)) v then None
  else Some (if n <? 0 then Qopp v else v).

(** The integral part of [modf(x)]: truncation toward zero. *)
Definition trunc (x : Q) : Z := Z.quot (Qnum x) (Zpos (Qden x)).

(** [_PyTime_DoubleToDenominator(x, &sec, &us, 1e6, _PyTime_ROUND_HALF_EVEN)]
    as called by [datetime.fromtimestamp]: [modf] splits [x] exactly, the
    fractional part is multiplied by 1e6 in floating point and rounded half
    to even, then carried into the seconds. *)
Definition to_timeval (x : Q) : option (Z * Z) :=
  let ip := trunc x in
  fp ← to_double ((x - inject_Z ip) * inject_Z 1000000);
  let us := round_half_even (Qnum fp) (Zpos (Qden fp)) in
  Some (if 1000000 <=? us then (ip + 1, us - 1000000)
        else if us <? 0 then (ip - 1, us + 1000000) else (ip, us)).

Definition year_ok (y : Z) : bool := (1 <=? y) && (y <=? 9999).

(** The year of the local time at UTC second [t]. *)
Definition local_year (utc_offset : Z -> Z) (t : Z) : Z :=
  let '(y, _, _) := civil_from_days ((t + utc_offset t) / 86400) in y.

(** [isoformat()] of the naive datetime [local] seconds after
    1970-01-01T00:00:00 on the local clock, with [us] microseconds. *)
Definition iso_string (local us : Z) : string :=
  let '(y, m, d) := civil_from_days (local / 86400) in
  let secs := local mod 86400 in
  (zero_pad 4 y ++ "-" ++ zero_pad 2 m ++ "-" ++ zero_pad 2 d ++ "T" ++
   zero_pad 2 (secs / 3600) ++ ":" ++ zero_pad 2 ((secs mod 3600) / 60) ++ ":" ++
   zero_pad 2 (secs mod 60) ++
   (if Z.eqb us 0 then "" else "." ++ zero_pad 6 us))%string.

(** [datetime.fromtimestamp(ms / 1000).isoformat()] (CPython 3.6 and later)
    in a process whose local time is UTC plus [utc_offset t] seconds at UTC
    second [t].  [ms / 1000] is the correctly rounded float quotient; the
    local time is taken at the whole seconds [t] of [to_timeval].  To
    compute [fold], [datetime_from_timet_and_us] also converts the instant
    one day earlier ([max_fold_seconds]) and, when the offset has dropped
    over that day, the instant moved back by the drop; each conversion
    raises [ValueError] when its local year is outside 1..9999.  [None]
    models these exceptions and the [OverflowError]s (caught by the
    normalizer's [except Exception]).  An integral part outside the range
    of [time_t] always has a local year outside 1..9999. *)
Definition from_timestamp (utc_offset : Z -> Z) (ms : Z) : option string :=
  x ← to_double (Qmake ms 1000);
  match to_timeval x with
  | Some (t, us) =>
      let transition := utc_offset t - utc_offset (t - 86400) in
      if year_ok (local_year utc_offset t) &&
         year_ok (local_year utc_offset (t - 86400)) &&
         (if transition <? 0 then year_ok (local_year utc_offset (t + transition)) else true)
      then Some (iso_string (t + utc_offset t) us)
      else None
  | None => None
  end.

(** The UTC conversion the claim refers to, computed exactly: the instant
    [ms] milliseconds after the epoch rendered in UTC (as
    [datetime.fromtimestamp(ms / 1000, timezone.utc)] without its suffix),
    for years 1..9999. *)
Definition utc_iso (ms : Z) : option string :=
  let t := ms / 1000 in
  let '(y, _, _) := civil_from_days (t / 86400) in
  if year_ok y then Some (iso_string t ((ms mod 1000) * 1000)) else None.

End DateTime.

(* ------------------------------------------------------------------ *)
(** ** RecordNormalizer: [CourtDecision] and [parse_decision_from_json] *)
(* ------------------------------------------------------------------ *)

Module Normalizer.

(** [@dataclass CourtDecision].  Fields copied from the JSON entry keep the
    JSON value they were copied from (Python does not enforce the
    annotations). *)
Record decision := {
  id : json;
  case_number : json;
  court_name_uz : json;
  court_name_ru : json;
  responsible_judge : json;
  speaker_judge : json;
  hearing_date : json;
  result : json;
  instance : json;
  categories : json;
  pdf_id : json;
  pdf_name : json;
  pdf_size : json;
  pdf_url : string;
  text_file_path : option string;
  text_file_relative_path : option string;
  text_extraction_success : bool;
  extracted_text : option string
}.

Definition new_api_base : string := "https://adolatapi1.sud.uz".
Definition old_api_base : string := "https://publication.sud.uz".

(** [CourtDecision(...)] with the defaults of the four crawl-derived fields. *)
Definition mk_decision id case_number uz ru rj sj hd res inst cats pid pname psize url
  : decision :=
  {| id := id; case_number := case_number; court_name_uz := uz; court_name_ru := ru;
     responsible_judge := rj; speaker_judge := sj; hearing_date := hd; result := res;
     instance := inst; categories := cats; pdf_id := pid; pdf_name := pname;
     pdf_size := psize; pdf_url := url; text_file_path := None;
     text_file_relative_path := None; text_extraction_success := false;
     extracted_text := None |}.

(** The "new" branch.  Every [KeyError]/[TypeError]/[AttributeError] is
    caught by the [except] clauses and yields [None]. *)
Definition parse_new (data : json) : option decision :=
  pdf ← subscript data "pdf";
  pid ← subscript pdf "id";
  let url := (new_api_base ++ "/public/onStream/" ++ py_str pid)%string in
  i ← subscript data "id";
  cn ← subscript data "case_number";
  names ← subscript data "court_names";
  uz ← get_default names "uz" (JStr "");
  ru ← get_default names "ru" (JStr "");
  rj ← get data "responsible_judge_name";
  sj ← get data "speaker_judge_name";
  hd ← subscript data "hearing_date";
  res ← subscript data "result";
  inst ← subscript data "instance";
  cats ← get_default data "categories" (JArr []);
  pname ← subscript pdf "name";
  psize ← subscript pdf "size";
  Some (mk_decision i cn uz ru rj sj hd res inst cats pid pname psize url).

(** [attachmentsList[0]]: only a list gets past both subscripts; on a
    non-empty string [s[0]] succeeds but [['fileData']] then raises. *)
Definition first_item (v : json) : option json :=
  match v with JArr (x :: _) => Some x | _ => None end.

(** [if hearing_date and isinstance(hearing_date, int): hearing_date =
    datetime.fromtimestamp(hearing_date / 1000).isoformat()]; [bool] is a
    subclass of [int]. *)
Definition convert_hearing_date (utc_offset : Z -> Z) (hd : json) : option json :=
  match hd with
  | JInt z => if negb (z =? 0) then s ← DateTime.from_timestamp utc_offset z; Some (JStr s)
              else Some hd
  | JBool true => s ← DateTime.from_timestamp utc_offset 1; Some (JStr s)
  | _ => Some hd
  end.

(** The "old" branch. *)
Definition parse_old (utc_offset : Z -> Z) (data : json) : option decision :=
  att ← get data "attachmentsList";
  if negb (truthy att) then None else
  att' ← subscript data "attachmentsList";
  if negb (truthy att') then None else
  first ← first_item att';
  file_data ← subscript first "fileData";
  fid ← subscript file_data "id";
  let pid := py_str fid in
  let url := (old_api_base ++ "/api/file/download/" ++ pid ++ "/")%string in
  hd0 ← get data "hearingDate";
  hd ← convert_hearing_date utc_offset hd0;
  cat ← get data "category";
  let cats := if truthy cat then JArr [JObj [("uz", cat)]] else JArr [] in
  i ← subscript data "id";
  cn ← get data "caseNumber";
  db ← get_default data "dbName" (JStr "");
  judge ← get data "judge";
  res ← get_default data "result" (JStr "");
  pname ← subscript file_data "name";
  psize ← subscript file_data "size";
  Some (mk_decision (JStr (py_str i)) (if truthy cn then cn else JStr "") db db judge JNull
          (if truthy hd then hd else JStr "") res (JStr "FIRST") cats (JStr pid)
          pname psize url).

(** [parse_decision_from_json(decision_data, period)]; [utc_offset] is the
    process's local time zone, used by [datetime.fromtimestamp]. *)
Definition parse_decision_from_json (utc_offset : Z -> Z) (data : json) (period : string)
  : option decision :=
  if String.eqb period "new" then parse_new data else parse_old utc_offset data.

End Normalizer.
Import Normalizer.

(* ------------------------------------------------------------------ *)
(** ** Observable effects of a run *)
(* ------------------------------------------------------------------ *)

Module Events.

(** The effects the claims talk about, in the order they happen. *)
Inductive event :=
  | EFetch (period : string) (page : Z)          (** [get_decisions_list(page=...)] *)
  | ESkip (page : Z)                             (** skipped: metadata file exists *)
  | EMetaWrite (file : string)                   (** [save_metadata] *)
  | ETaskStart (page : Z) (i : nat)              (** [executor.submit] of record [i] *)
  | ETaskDone (page : Z) (i : nat)               (** [as_completed] yields record [i] *)
  | ETextWrite (file : string) (content : string) (** text file written *)
  | ETextWriteFailed (file : string)             (** [open]/[write] raised *)
  | EPageDone (page : Z)                         (** end of the loop body *)
  | ESectionSkip (period : string).              (** [continue] of the section loop *)

Definition not_meta_write (ev : event) : Prop := forall f, ev <> EMetaWrite f.

End Events.
Import Events.

(* ------------------------------------------------------------------ *)
(** ** AttachmentCoordinator: [_download_pdfs_batch] *)
(* ------------------------------------------------------------------ *)

Module Batch.

(** [s.replace(c, '_')] for a one-character [c]. *)
Fixpoint replace_char (c : ascii) (s : string) : string :=
  match s with
  | EmptyString => EmptyString
  | String c' s' => String (if Ascii.eqb c c' then "_"%char else c') (replace_char c s')
  end.

(** The characters of the literal iterated by [_create_safe_filename]:
    less-than, greater-than, colon, double quote (code 34), bar, question
    mark, star. *)
Definition forbidden_chars : list ascii :=
  ["<"; ">"; ":"; ascii_of_nat 34; "|"; "?"; "*"]%char.

(** [_create_safe_filename(decision)]; [None] models the exception raised
    when [case_number] is not a [str] ([.replace]) or [id] cannot be sliced. *)
Definition create_safe_filename (d : decision) : option string :=
  case_num ← match case_number d with
             | JStr s => Some (replace_char "\"%char (replace_char "/"%char s))
             | _ => None
             end;
  id8 ← match id d with
        | JStr s => Some (substring 0 8 s)
        | JArr l => Some (py_str (JArr (firstn 8 l)))
        | _ => None
        end;
  Some (foldl (fun acc c => replace_char c acc) (case_num ++ "_" ++ id8)%string
              forbidden_chars).

Definition nl : string := String (ascii_of_nat 10) EmptyString.

(** The text file written by [save_decision_with_text]. *)
Definition text_file_content (d : decision) (body : string) : string :=
  ("CASE: " ++ py_str (case_number d) ++ nl ++
   "COURT: " ++ py_str (court_name_uz d) ++ nl ++
   "JUDGE: " ++ (if truthy (responsible_judge d) then py_str (responsible_judge d)
                 else "Not specified") ++ nl ++
   "DATE: " ++ py_str (hearing_date d) ++ nl ++
   "RESULT: " ++ py_str (result d) ++ nl ++
   "================================================================================" ++
   nl ++ nl ++ body)%string.

Definition set_paths (d : decision) (p rp : option string) : decision :=
  {| id := id d; case_number := case_number d; court_name_uz := court_name_uz d;
     court_name_ru := court_name_ru d; responsible_judge := responsible_judge d;
     speaker_judge := speaker_judge d; hearing_date := hearing_date d; result := result d;
     instance := instance d; categories := categories d; pdf_id := pdf_id d;
     pdf_name := pdf_name d; pdf_size := pdf_size d; pdf_url := pdf_url d;
     text_file_path := p; text_file_relative_path := rp;
     text_extraction_success := text_extraction_success d;
     extracted_text := extracted_text d |}.

Definition set_success (d : decision) (b : bool) : decision :=
  {| id := id d; case_number := case_number d; court_name_uz := court_name_uz d;
     court_name_ru := court_name_ru d; responsible_judge := responsible_judge d;
     speaker_judge := speaker_judge d; hearing_date := hearing_date d; result := result d;
     instance := instance d; categories := categories d; pdf_id := pdf_id d;
     pdf_name := pdf_name d; pdf_size := pdf_size d; pdf_url := pdf_url d;
     text_file_path := text_file_path d;
     text_file_relative_path := text_file_relative_path d;
     text_extraction_success := b; extracted_text := extracted_text d |}.

Definition set_text (d : decision) (t : string) : decision :=
  {| id := id d; case_number := case_number d; court_name_uz := court_name_uz d;
     court_name_ru := court_name_ru d; responsible_judge := responsible_judge d;
     speaker_judge := speaker_judge d; hearing_date := hearing_date d; result := result d;
     instance := instance d; categories := categories d; pdf_id := pdf_id d;
     pdf_name := pdf_name d; pdf_size := pdf_size d; pdf_url := pdf_url d;
     text_file_path := text_file_path d;
     text_file_relative_path := text_file_relative_path d;
     text_extraction_success := text_extraction_success d; extracted_text := Some t |}.

(** [save_decision_with_text(decision, ...)]; [write_ok] says whether the
    [open]/[write] of the text file succeeds.  [None] models an exception
    escaping the method (only [_create_safe_filename] can raise outside its
    [try]). *)
Definition save_decision_with_text (d : decision) (write_ok : bool)
  : option (decision * list event) :=
  if Rate.truthy_str (extracted_text d) then
    safe ← create_safe_filename d;
    let file := ("extracted_text/" ++ safe ++ ".txt")%string in
    if write_ok then
      Some (set_paths d (Some ("extracted_text/" ++ safe ++ ".txt")%string)
                        (Some ("../extracted_text/" ++ safe ++ ".txt")%string),
            [ETextWrite file (text_file_content d (default "" (extracted_text d)))])
    else Some (set_paths d None None, [ETextWriteFailed file])
  else Some (set_paths d None None, []).

(** What [future.result()] gives for one record: the value returned by
    [_process_single_decision] (the extracted text or [None]) or an
    exception it raised. *)
Inductive task_result := TRaise | TReturn (o : option string).

(** The body of the [for future in as_completed(...)] loop for one record. *)
Definition process_one (page : Z) (i : nat) (o : task_result) (write_ok : bool)
  (d : decision) : decision * list event :=
  let done_ev := ETaskDone page i in
  match o with
  | TReturn (Some t) =>
      if negb (String.eqb t "") then
        let d1 := set_success (set_text d t) true in
        match save_decision_with_text d1 write_ok with
        | Some (d2, evs) => (d2, done_ev :: evs)
        | None => (set_success d1 false, [done_ev])
        end
      else (set_success d false, [done_ev])
  | TReturn None => (set_success d false, [done_ev])
  | TRaise => (set_success d false, [done_ev])
  end.

Definition outcome (outs : list task_result) (i : nat) : task_result :=
  default TRaise (outs !! i).

Definition write_ok_at (woks : list bool) (i : nat) : bool := default false (woks !! i).

(** The [as_completed] loop: [order] is the completion order of the futures;
    record [i] of the shared list is updated in place. *)
Fixpoint run_order (page : Z) (outs : list task_result) (woks : list bool)
  (order : list nat) (st : list decision) (evs : list event) : list decision * list event :=
  match order with
  | [] => (st, evs)
  | i :: order' =>
      match st !! i with
      | Some d =>
          let r := process_one page i (outcome outs i) (write_ok_at woks i) d in
          run_order page outs woks order' (<[i := fst r]> st) (evs ++ snd r)
      | None => run_order page outs woks order' st evs
      end
  end.

(** [_download_pdfs_batch(decisions, ...)]: the task list is built first
    (an exception there escapes the method: [None]), every task is
    submitted, then the results are consumed in completion order. *)
Definition download_pdfs_batch (page : Z) (outs : list task_result) (woks : list bool)
  (order : list nat) (ds : list decision) : option (list decision * list event) :=
  _ ← mapM create_safe_filename ds;
  Some (run_order page outs woks order ds (imap (fun i _ => ETaskStart page i) ds)).

(** A task whose fetch or extraction failed. *)
Definition task_failed (o : task_result) : bool :=
  match o with
  | TRaise => true
  | TReturn None => true
  | TReturn (Some t) => String.eqb t ""
  end.

End Batch.

(* ------------------------------------------------------------------ *)
(** ** CrawlOrchestrator: [parse_all_decisions] *)
(* ------------------------------------------------------------------ *)

Module Orchestrator.
Import Batch.

(** What the run changes: the files under [metadata/] with their JSON
    content, the counters of [self.stats] the claims read, the list
    returned by [parse_all_decisions], and the event log. *)
Record world := {
  meta : gmap string json;
  pages_processed : Z;
  decisions_found : Z;
  all_decisions : list decision;
  log : list event
}.

(** What a call of [get_decisions_list] gives the loop: its return value
    ([None] or the decoded data), or an exception escaping it (the
    [ValueError] of a negative sleep in [_adaptive_delay], the
    [JSONDecodeError] of the old API's [data] string, ...). *)
Inductive fetched := Fetched (v : option json) | FetchRaised.

(** The outside world, given by the position of each call in a run: the
    section's first [get_decisions_list] call, the call for a page of the
    loop, whether the pause after a page raises, the result of
    [_process_single_decision] for the [i]-th record of a page, whether that
    record's text file can be written, the [as_completed] order of a page of
    [n] records, and the local time zone.  A run makes each call at most
    once per position, so every run of the source, whatever the server and
    the shared rate limiter do, is the run of the model for some
    environment.  The environment does not say how these results depend on
    one another: they all go through the parser's shared rate limiter (see
    [Pool]). *)
Record env := {
  first_fetch : string -> fetched;
  fetch : string -> Z -> fetched;
  pause_raises : string -> Z -> bool;
  attach : string -> Z -> nat -> task_result;
  text_write_ok : string -> Z -> nat -> bool;
  completion : string -> Z -> nat -> list nat;
  utc_offset : Z -> Z
}.

(** A state monad with exceptions: an uncaught Python exception keeps the
    effects done so far. *)
Inductive res (A : Type) := Ok (a : A) (w : world) | Raised (w : world).
Arguments Ok {A} a w.
Arguments Raised {A} w.

Definition M (A : Type) := world -> res A.

Definition ret {A} (a : A) : M A := fun w => Ok a w.
Definition bind {A B} (m : M A) (k : A -> M B) : M B :=
  fun w => match m w with Ok a w' => k a w' | Raised w' => Raised w' end.
Definition raise {A} : M A := fun w => Raised w.
Definition modify (f : world -> world) : M unit := fun w => Ok tt (f w).
Definition lift {A} (o : option A) : M A :=
  match o with Some a => ret a | None => raise end.

Notation "'let*' x := m 'in' k" := (bind m (fun x => k)) (at level 200, x binder).

Definition emit (evs : list event) : M unit :=
  modify (fun w => {| meta := meta w; pages_processed := pages_processed w;
                      decisions_found := decisions_found w;
                      all_decisions := all_decisions w; log := log w ++ evs |}).

(** [f"page_{period}_{page:04d}.json"] *)
Definition metadata_file (period : string) (page : Z) : string :=
  ("page_" ++ period ++ "_" ++ format_0d 4 page ++ ".json")%string.

Definition opt_str (o : option string) : json :=
  match o with Some s => JStr s | None => JNull end.

(** [decision.to_dict()]: [asdict] minus [extracted_text]. *)
Definition to_dict (d : decision) : json :=
  JObj [("id", id d); ("case_number", case_number d); ("court_name_uz", court_name_uz d);
        ("court_name_ru", court_name_ru d); ("responsible_judge", responsible_judge d);
        ("speaker_judge", speaker_judge d); ("hearing_date", hearing_date d);
        ("result", result d); ("instance", instance d); ("categories", categories d);
        ("pdf_id", pdf_id d); ("pdf_name", pdf_name d); ("pdf_size", pdf_size d);
        ("pdf_url", JStr (pdf_url d)); ("text_file_path", opt_str (text_file_path d));
        ("text_file_relative_path", opt_str (text_file_relative_path d));
        ("text_extraction_success", JBool (text_extraction_success d))].

(** [save_metadata(decisions, page_identifier)]: the file content is the
    JSON of the records at the time of the call. *)
Definition save_metadata (ds : list decision) (file : string) : M unit :=
  modify (fun w => {| meta := <[file := JArr (map to_dict ds)]> (meta w);
                      pages_processed := pages_processed w;
                      decisions_found := decisions_found w;
                      all_decisions := all_decisions w; log := log w ++ [EMetaWrite file] |}).

(** Keys of a decoded dict in iteration order (first occurrence kept). *)
Fixpoint dict_keys (seen : list string) (kvs : list (string * json)) : list string :=
  match kvs with
  | [] => []
  | (k, _) :: kvs' =>
      if existsb (String.eqb k) seen then dict_keys seen kvs'
      else k :: dict_keys (k :: seen) kvs'
  end.

(** [for decision_data in v]: a list, the keys of a dict, the characters of
    a string; [None] is the [TypeError] of a non-iterable. *)
Definition iter_json (v : json) : option (list json) :=
  match v with
  | JArr l => Some l
  | JObj kvs => Some (map JStr (dict_keys [] kvs))
  | JStr s => Some (map (fun c => JStr (String c EmptyString)) (list_ascii_of_string s))
  | _ => None
  end.

(** Normalized records of a page: [page_data.get('content', [])], then the
    parse loop dropping [None]. *)
Definition page_records (e : env) (period : string) (v : json) : option (list decision) :=
  content ← get_default v "content" (JArr []);
  items ← (iter_json content : option (list json));
  Some (omap (M := list) (fun x => parse_decision_from_json (utc_offset e) x period) items).

(** [if not overwrite_files and page_metadata_file.exists()] *)
Definition skip_test (overwrite : bool) (m : gmap string json) (period : string) (page : Z)
  : bool :=
  negb overwrite && bool_decide (is_Some (m !! metadata_file period page)).

(** How the loop body obtains [page_data]: the first page's data is reused
    when [page == start_page == 0]; otherwise the page is fetched, and
    [Fetched None] means the body ends with [continue]. *)
Definition fetch_page (e : env) (period : string) (start : Z) (fpd : json) (page : Z)
  : fetched * list event :=
  if (page =? start) && (start =? 0) then (Fetched (Some fpd), [])
  else
    match fetch e period page with
    | Fetched (Some v) =>
        (if truthy v then Fetched (Some v) else Fetched None, [EFetch period page])
    | r => (r, [EFetch period page])
    end.

(** [self.stats['decisions_found'] += n] *)
Definition count_found (n : Z) : M unit :=
  modify (fun w => {| meta := meta w; pages_processed := pages_processed w;
                      decisions_found := decisions_found w + n;
                      all_decisions := all_decisions w; log := log w |}).

(** [all_decisions.extend(page_decisions)]. *)
Definition collect (ds : list decision) : M unit :=
  modify (fun w => {| meta := meta w; pages_processed := pages_processed w;
                      decisions_found := decisions_found w;
                      all_decisions := all_decisions w ++ ds; log := log w |}).

Definition count_page : M unit :=
  modify (fun w => {| meta := meta w; pages_processed := pages_processed w + 1;
                      decisions_found := decisions_found w;
                      all_decisions := all_decisions w; log := log w |}).

(** The pause at the end of the loop body: [time.sleep(0.1)] or
    [self._adaptive_delay()] when [page < actual_end_page - 1]; only the
    latter can raise. *)
Definition pause (e : env) (period : string) (end_ page : Z) : M unit :=
  if (page <? end_ - 1) && pause_raises e period page then raise else ret tt.

(** The body of [for page in range(start_page, actual_end_page)] after the
    skip test; [end_] is [actual_end_page].  The records of a non-empty page
    are counted in [decisions_found], then saved, then given to the batch.
    [all_decisions] is a local list of [parse_all_decisions], seen only when
    the run returns; its [extend] shares the record objects with the batch,
    so the list holds them as the batch leaves them: the model appends the
    records returned by the batch. *)
Definition page_process (e : env) (period : string) (start : Z) (fpd : json) (end_ : Z)
  (download : bool) (page : Z) : M unit :=
  let '(pd, evf) := fetch_page e period start fpd page in
  let* _ := emit evf in
  match pd with
  | FetchRaised => raise
  | Fetched None => ret tt
  | Fetched (Some v) =>
      let* ds := lift (page_records e period v) in
      let* _ :=
        match ds with
        | [] => ret tt
        | _ :: _ =>
            let n := List.length ds in
            let* _ := count_found (Z.of_nat n) in
            let* _ := save_metadata ds (metadata_file period page) in
            if download then
              let* r := lift (download_pdfs_batch page (map (attach e period page) (seq 0 n))
                                (map (text_write_ok e period page) (seq 0 n))
                                (completion e period page n) ds) in
              let* _ := collect (fst r) in
              emit (snd r)
            else collect ds
        end in
      let* _ := count_page in
      let* _ := emit [EPageDone page] in
      pause e period end_ page
  end.

Definition page_step (e : env) (period : string) (start : Z) (fpd : json) (end_ : Z)
  (overwrite download : bool) (page : Z) : M unit :=
  fun w =>
    if skip_test overwrite (meta w) period page then emit [ESkip page] w
    else page_process e period start fpd end_ download page w.

Fixpoint page_loop (e : env) (period : string) (start : Z) (fpd : json) (end_ : Z)
  (overwrite download : bool) (pages : list Z) : M unit :=
  match pages with
  | [] => ret tt
  | p :: ps =>
      let* _ := page_step e period start fpd end_ overwrite download p in
      page_loop e period start fpd end_ overwrite download ps
  end.

(** A number compared with [int] ([bool] is an [int]); [None] is the
    [TypeError] of the comparison. *)
Definition as_int (v : json) : option Z :=
  match v with
  | JInt z => Some z
  | JBool b => Some (if b then 1 else 0)
  | _ => None
  end.

(** [total_pages] after [if max_pages: total_pages = min(total_pages, max_pages)]. *)
Definition limited_total (total : Z) (max_pages : option Z) : Z :=
  match max_pages with
  | Some m => if m =? 0 then total else Z.min total m
  | None => total
  end.

(** [actual_end_page]: exclusive end of the page range. *)
Definition actual_end_page (total : Z) (end_page : option Z) : Z :=
  match end_page with
  | Some e => Z.min (e + 1) total
  | None => total
  end.

(** One iteration of [for court_type, period in sections_to_process]. *)
Definition run_section (e : env) (period : string) (max_pages : option Z)
  (download overwrite : bool) (start : Z) (end_page : option Z) : M unit :=
  let* _ := emit [EFetch period 0] in
  match first_fetch e period with
  | FetchRaised => raise
  | Fetched None => emit [ESectionSkip period]
  | Fetched (Some fpd) =>
      if negb (truthy fpd) then emit [ESectionSkip period] else
      let* tp := lift (get_default fpd "totalPages" (JInt 0)) in
      let* te := lift (get_default fpd "totalElements" (JInt 0)) in
      let* _ := lift (as_int te) in
      let* total := lift (as_int tp) in
      let total' := limited_total total max_pages in
      let end_ := actual_end_page total' end_page in
      if (0 <? start) && (total' <=? start) then emit [ESectionSkip period]
      else if end_ <=? start then emit [ESectionSkip period]
      else page_loop e period start fpd end_ overwrite download (seqZ start (end_ - start))
  end.

Fixpoint run_sections (e : env) (periods : list string) (max_pages : option Z)
  (download overwrite : bool) (start : Z) (end_page : option Z) : M unit :=
  match periods with
  | [] => ret tt
  | p :: ps =>
      let* _ := run_section e p max_pages download overwrite start end_page in
      run_sections e ps max_pages download overwrite start end_page
  end.

(** [parse_all_decisions(section, max_pages, download_pdfs, max_workers,
    start_page, end_page, overwrite_files)]; [max_workers] only bounds the
    thread pool and is not modelled; the final [_print_final_stats] only
    logs (its division by the elapsed time is taken to be defined). *)
Definition parse_all_decisions (e : env) (section : string) (max_pages : option Z)
  (download : bool) (start : Z) (end_page : option Z) (overwrite : bool)
  : M (list decision) :=
  let* periods :=
    lift (if String.eqb section "new" then Some ["new"%string]
          else if String.eqb section "old" then Some ["old"%string]
          else if String.eqb section "both" then Some ["new"; "old"]%string
          else None) in
  let* _ := run_sections e periods max_pages download overwrite start end_page in
  fun w => Ok (all_decisions w) w.

(** The world a run ends in, whether it returned or raised. *)
Definition final_world {A} (r : res A) : world :=
  match r with Ok _ w => w | Raised w => w end.

End Orchestrator.

(* ------------------------------------------------------------------ *)
(** ** HTTP client: [extract_text_from_pdf], [get_decisions_list],
       [download_pdf_and_extract_text] *)
(* ------------------------------------------------------------------ *)

Module Client.

(** Whitespace of [str.split()] and [str.strip()] among the code points
    below 256: \t \n \v \f \r, the separators \x1c..\x1f, space, \x85 and
    \xa0. *)
Definition py_space (c : ascii) : bool :=
  let n := nat_of_ascii c in
  ((9 <=? n)%nat && (n <=? 13)%nat) || ((28 <=? n)%nat && (n <=? 32)%nat) ||
  (n =? 133)%nat || (n =? 160)%nat.

Fixpoint lstrip (l : list ascii) : list ascii :=
  match l with
  | c :: l' => if py_space c then lstrip l' else l
  | [] => []
  end.

(** [s.strip()] *)
Definition py_strip (s : string) : string :=
  string_of_list_ascii (rev (lstrip (rev (lstrip (list_ascii_of_string s))))).

(** The maximal runs of non-whitespace of [l]; [cur] is the run being read,
    reversed. *)
Fixpoint words (l : list ascii) (cur : list ascii) : list (list ascii) :=
  match l with
  | [] => match cur with [] => [] | _ => [rev cur] end
  | c :: l' =>
      if py_space c then
        match cur with [] => words l' [] | _ => rev cur :: words l' [] end
      else words l' (c :: cur)
  end.

(** [s.split()] *)
Definition py_split (s : string) : list string :=
  map string_of_list_ascii (words (list_ascii_of_string s) []).

Definition nl2 : string := String (ascii_of_nat 10) (String (ascii_of_nat 10) EmptyString).

(** The parser object's state the requests touch: [self.rate_limit] and the
    counters of [self.stats] they update. *)
Record client := {
  rate : Rate.rate_limit;
  pdfs_downloaded : Z;
  texts_extracted : Z;
  text_extraction_errors : Z;
  errors : Z
}.

Definition set_rate (c : client) (st : Rate.rate_limit) : client :=
  {| rate := st; pdfs_downloaded := pdfs_downloaded c; texts_extracted := texts_extracted c;
     text_extraction_errors := text_extraction_errors c; errors := errors c |}.

Definition bump_texts (c : client) : client :=
  {| rate := rate c; pdfs_downloaded := pdfs_downloaded c;
     texts_extracted := texts_extracted c + 1;
     text_extraction_errors := text_extraction_errors c; errors := errors c |}.

Definition bump_extraction_errors (c : client) : client :=
  {| rate := rate c; pdfs_downloaded := pdfs_downloaded c; texts_extracted := texts_extracted c;
     text_extraction_errors := text_extraction_errors c + 1; errors := errors c |}.

Definition bump_downloaded (c : client) : client :=
  {| rate := rate c; pdfs_downloaded := pdfs_downloaded c + 1;
     texts_extracted := texts_extracted c;
     text_extraction_errors := text_extraction_errors c; errors := errors c |}.

(** [extract_text_from_pdf(pdf_content)]: [pages] is the list of
    [page.get_text()] results PyMuPDF gives for the content, [None] when
    [fitz.open] or a page raises (caught by the [except Exception]).
    Lengths count characters. *)
Definition extract_text_from_pdf (pages : option (list string)) (c : client)
  : option string * client :=
  match pages with
  | None => (None, bump_extraction_errors c)
  | Some ps =>
      let extracted :=
        map (fun t => concat_sep " " (py_split t))
            (List.filter (fun t => negb (String.eqb (py_strip t) "")) ps) in
      let full := concat_sep nl2 extracted in
      if (String.length (py_strip full) <? 50)%nat then (None, c)
      else (Some full, bump_texts c)
  end.

(** One [self.session.get(...)]: a response with its body, or a
    [RequestException] (connection error, timeout). *)
Inductive attempt (B : Type) := AResp (r : Rate.response) (body : B) | AFail.
Arguments AResp {B} r body.
Arguments AFail {B}.

(** Where the request part of a call ends: with a response, with a
    [RequestException], or with another exception escaping the method. *)
Inductive sent (B : Type) :=
  | Got (r : Rate.response) (body : B) (c : client)
  | ReqExc (c : client)
  | Escape (c : client).
Arguments Got {B} r body c.
Arguments ReqExc {B} c.
Arguments Escape {B} c.

(** [self._adaptive_delay()]: the sleep and the new state, or [None] when
    [time.sleep] raises [ValueError]. *)
Definition delay (base now : Q) (c : client) : option (Q * client) :=
  match Rate.adaptive_delay base now (rate c) with
  | Rate.Slept d st => Some (d, set_rate c st)
  | Rate.Sleep_error _ _ => None
  end.

(** The common request part of [get_decisions_list] and
    [download_pdf_and_extract_text]: delay, get, check the rate limits, and
    on a [False] check delay and get once more.  [a1] and [a2] are the
    results of the first and second [get]; the result also gives the
    durations slept and the number of requests sent. *)
Definition send {B} (base now : Q) (a1 a2 : attempt B) (c : client)
  : sent B * list Q * nat :=
  match delay base now c with
  | None => (Escape c, [], 0%nat)
  | Some (d, c1) =>
      match a1 with
      | AFail => (ReqExc c1, [d], 1%nat)
      | AResp r b =>
          let '(ok, st) := Rate.check_rate_limits r (rate c1) in
          let c2 := set_rate c1 st in
          if ok then (Got r b c2, [d], 1%nat)
          else
            match delay base now c2 with
            | None => (Escape c2, [d], 1%nat)
            | Some (d2, c3) =>
                match a2 with
                | AFail => (ReqExc c3, [d; d2], 2%nat)
                | AResp r2 b2 => (Got r2 b2 c3, [d; d2], 2%nat)
                end
            end
      end
  end.

(** [response.raise_for_status()] raises [HTTPError] for 4xx and 5xx. *)
Definition http_error (r : Rate.response) : bool :=
  (400 <=? Rate.status_code r) && (Rate.status_code r <? 600).

(** The [except requests.exceptions.RequestException] branch. *)
Definition on_request_exception (c : client) : client :=
  {| rate := Rate.transport_failure (rate c); pdfs_downloaded := pdfs_downloaded c;
     texts_extracted := texts_extracted c;
     text_extraction_errors := text_extraction_errors c; errors := errors c + 1 |}.

(** The result of a method: its return value, or an exception escaping it;
    both with the object's state. *)
Inductive outcome (A : Type) := Returned (a : A) (c : client) | Escaped (c : client).
Arguments Returned {A} a c.
Arguments Escaped {A} c.




(** [download_pdf_and_extract_text(pdf_id, filename, period)]; the body of
    a response is what PyMuPDF reads from [response.content]. *)
Definition download_pdf_and_extract_text (base now : Q)
  (a1 a2 : attempt (option (list string))) (c : client)
  : outcome (option string) * list Q * nat :=
  let '(s, sl, n) := send base now a1 a2 c in
  (match s with
   | Escape c' => Escaped c'
   | ReqExc c' => Returned None (on_request_exception c')
   | Got r pages c' =>
       if http_error r then Returned None (on_request_exception c')
       else
         let '(t, c'') := extract_text_from_pdf pages c' in
         if Rate.truthy_str t then Returned t (bump_downloaded c'') else Returned None c''
   end, sl, n).

Definition outcome_client {A} (o : outcome A) : client :=
  match o with Returned _ c => c | Escaped c => c end.

End Client.

(* ------------------------------------------------------------------ *)
(** ** The worker pool of [_download_pdfs_batch] *)
(* ------------------------------------------------------------------ *)

Module Pool.
Import Client.


End Pool.

(* ------------------------------------------------------------------ *)
(** ** Sample inputs *)
(* ------------------------------------------------------------------ *)

Module Samples.

(** Local time of Asia/Tashkent: UTC+5, no daylight saving. *)
Definition tashkent_offset (t : Z) : Z := 18000.

(** An old-schema listing entry with [hearingDate = 1700000000000]. *)
Definition old_entry : json :=
  JObj [("attachmentsList",
         JArr [JObj [("fileData", JObj [("id", JInt 7); ("name", JStr "d.pdf");
                                        ("size", JInt 1024)])]]);
        ("id", JInt 42); ("caseNumber", JStr "4-1001-2301/77");
        ("hearingDate", JInt 1700000000000)].

Definition old_entry_decision : decision :=
  Eval vm_compute in
  default (mk_decision JNull JNull JNull JNull JNull JNull JNull JNull JNull JNull JNull
             JNull JNull "")
          (parse_decision_from_json tashkent_offset old_entry "old").

(** [old_entry] dated 0001-01-01T00:00:00 UTC. *)
Definition old_entry_year1 : json :=
  JObj [("attachmentsList",
         JArr [JObj [("fileData", JObj [("id", JInt 7); ("name", JStr "d.pdf");
                                        ("size", JInt 1024)])]]);
        ("id", JInt 42); ("caseNumber", JStr "4-1001-2301/77");
        ("hearingDate", JInt (-62135596800000))].

(** A listing page of the old API: one entry, three pages in total. *)
Definition old_page : json :=
  JObj [("content", JArr [old_entry]); ("totalPages", JInt 3); ("totalElements", JInt 3)].

(** A server that serves pages 0..2 of the old section, attachments whose
    text extraction succeeds, a writable disk, futures completing in
    submission order, and the Tashkent time zone. *)
Definition env_ok : Orchestrator.env := {|
  Orchestrator.first_fetch := fun period =>
    Orchestrator.Fetched (if String.eqb period "old" then Some old_page else None);
  Orchestrator.fetch := fun period page =>
    Orchestrator.Fetched
      (if String.eqb period "old" && (0 <=? page) && (page <? 3) then Some old_page else None);
  Orchestrator.pause_raises := fun _ _ => false;
  Orchestrator.attach := fun _ _ _ => Batch.TReturn (Some "The economic court decided ...");
  Orchestrator.text_write_ok := fun _ _ _ => true;
  Orchestrator.completion := fun _ _ n => seq 0 n;
  Orchestrator.utc_offset := tashkent_offset |}.

Definition empty_world : Orchestrator.world := {|
  Orchestrator.meta := ∅; Orchestrator.pages_processed := 0;
  Orchestrator.decisions_found := 0; Orchestrator.all_decisions := [];
  Orchestrator.log := [] |}.

(** The metadata directory after an earlier run wrote pages 0..2. *)
Definition world_all_written : Orchestrator.world := {|
  Orchestrator.meta :=
    <[Orchestrator.metadata_file "old" 0 := JArr []]>
    (<[Orchestrator.metadata_file "old" 1 := JArr []]>
     (<[Orchestrator.metadata_file "old" 2 := JArr []]> ∅));
  Orchestrator.pages_processed := 0;
  Orchestrator.decisions_found := 0; Orchestrator.all_decisions := [];
  Orchestrator.log := [] |}.





(** Page 1 of the old section under [env_ok]: its records and the result of
    its attachment batch. *)
Definition page1_records : list Normalizer.decision :=
  Eval vm_compute in
  default [] (Orchestrator.page_records env_ok "old" old_page).

Definition page1_batch : list Normalizer.decision * list event :=
  Eval vm_compute in
  default ([], []) (Batch.download_pdfs_batch 1
    (map (Orchestrator.attach env_ok "old" 1) (seq 0 (List.length page1_records)))
    (map (Orchestrator.text_write_ok env_ok "old" 1) (seq 0 (List.length page1_records)))
    (Orchestrator.completion env_ok "old" 1 (List.length page1_records)) page1_records).

End Samples.

(** Inputs for the client, the normalizer and the page loop. *)
Module ExtraSamples.
Import Client.

(** A fresh parser: [RateLimitInfo()] and zero counters. *)
Definition client0 : client := {|
  rate := Rate.initial; pdfs_downloaded := 0; texts_extracted := 0;
  text_extraction_errors := 0; errors := 0 |}.

(** The page texts of a PDF: runs of spaces and tabs, a blank page. *)
Definition pdf_pages : list string :=
  ["  The economic   court of  Tashkent " ++ String (ascii_of_nat 9) "city";
   "   ";
   "ruled   that the claim is   granted in full. "]%string.

Definition resp200 : Rate.response := {| Rate.status_code := 200; Rate.headers := [] |}.
Definition resp404 : Rate.response := {| Rate.status_code := 404; Rate.headers := [] |}.



(** A new-schema listing entry whose id contains a slash and a colon. *)
Definition new_entry : json :=
  JObj [("id", JStr "a1/b2:c3-d4e5"); ("case_number", JStr "4-1001-2401/12");
        ("court_names", JObj [("uz", JStr "Toshkent sh."); ("ru", JStr "Tashkent city")]);
        ("hearing_date", JStr "2024-03-01"); ("result", JStr "granted");
        ("instance", JStr "FIRST");
        ("pdf", JObj [("id", JInt 9); ("name", JStr "r.pdf"); ("size", JInt 2048)])].

Definition new_entry_decision : decision :=
  Eval vm_compute in
  default (mk_decision JNull JNull JNull JNull JNull JNull JNull JNull JNull JNull JNull
             JNull JNull "")
          (parse_decision_from_json Samples.tashkent_offset new_entry "new").

(** [new_entry] with [court_names] a string. *)
Definition new_entry_flat_names : json :=
  JObj [("id", JStr "a1/b2:c3-d4e5"); ("case_number", JStr "4-1001-2401/12");
        ("court_names", JStr "Tashkent"); ("hearing_date", JStr "2024-03-01");
        ("result", JStr "granted"); ("instance", JStr "FIRST");
        ("pdf", JObj [("id", JInt 9); ("name", JStr "r.pdf"); ("size", JInt 2048)])].

(** An old-schema entry whose [caseNumber] is a number. *)
Definition old_entry_int_case : json :=
  JObj [("attachmentsList",
         JArr [JObj [("fileData", JObj [("id", JInt 8); ("name", JStr "e.pdf");
                                        ("size", JInt 512)])]]);
        ("id", JInt 43); ("caseNumber", JInt 77);
        ("hearingDate", JInt 1700000000000)].

Definition old_page_int_case : json :=
  JObj [("content", JArr [Samples.old_entry; old_entry_int_case]); ("totalPages", JInt 3);
        ("totalElements", JInt 6)].

Definition env_int_case : Orchestrator.env := {|
  Orchestrator.first_fetch := fun period =>
    Orchestrator.Fetched (if String.eqb period "old" then Some old_page_int_case else None);
  Orchestrator.fetch := fun period page =>
    Orchestrator.Fetched
      (if String.eqb period "old" && (0 <=? page) && (page <? 3) then Some old_page_int_case
       else None);
  Orchestrator.pause_raises := fun _ _ => false;
  Orchestrator.attach := fun _ _ _ => Batch.TReturn (Some "The economic court decided ...");
  Orchestrator.text_write_ok := fun _ _ _ => true;
  Orchestrator.completion := fun _ _ n => seq 0 n;
  Orchestrator.utc_offset := Samples.tashkent_offset |}.

Definition int_case_records : list decision :=
  Eval vm_compute in
  default [] (Orchestrator.page_records env_int_case "old" old_page_int_case).

(** The metadata directory after an earlier run wrote page 0 only. *)
Definition world_page0_written : Orchestrator.world := {|
  Orchestrator.meta := <[Orchestrator.metadata_file "old" 0 := JArr []]> ∅;
  Orchestrator.pages_processed := 0;
  Orchestrator.decisions_found := 0; Orchestrator.all_decisions := [];
  Orchestrator.log := [] |}.

End ExtraSamples.

(* ================================================================== *)
(** * Theorems *)
(* ================================================================== *)

Module RateProofs.
Import Rate.
Open Scope Q_scope.

Lemma Qmin_spec a b : Qmin a b == a /\ a <= b \/ Qmin a b == b /\ b < a.
Proof.
  unfold Qmin. destruct (Qle_bool a b) eqn:E.
  - left. split; [reflexivity|]. now apply Qle_bool_iff.
  - right. split; [reflexivity|]. apply Qnot_le_lt. intro H.
    apply Qle_bool_iff in H. congruence.
Qed.

Lemma Qmax_spec a b : Qmax a b == a /\ b <= a \/ Qmax a b == b /\ a < b.
Proof.
  unfold Qmax. destruct (Qle_bool b a) eqn:E.
  - left. split; [reflexivity|]. now apply Qle_bool_iff.
  - right. split; [reflexivity|]. apply Qnot_le_lt. intro H.
    apply Qle_bool_iff in H. congruence.
Qed.

Ltac qminmax :=
  repeat match goal with
  | |- context [Qmin ?a ?b] => destruct (Qmin_spec a b) as [[-> ?]|[-> ?]]
  | |- context [Qmax ?a ?b] => destruct (Qmax_spec a b) as [[-> ?]|[-> ?]]
  end.

Lemma analyse_remaining_bounds r st :
  delay_in_bounds st -> delay_in_bounds (analyse_remaining r st).
Proof.
  unfold analyse_remaining, delay_in_bounds, min_delay, max_delay. intros [H1 H2].
  destruct (truthy_str _); [|auto].
  destruct (PyStr.py_int _) as [n|]; [|auto].
  destruct (n <? 10)%Z; [|auto]. simpl. qminmax; lra.
Qed.

Lemma observe_bounds o st :
  delay_in_bounds st -> delay_in_bounds (observe o st).
Proof.
  intros Hb. pose proof Hb as [H1 H2].
  unfold delay_in_bounds, min_delay, max_delay in *.
  destruct o as [r|]; simpl.
  - unfold check_rate_limits.
    destruct (status_code r =? 429)%Z.
    + destruct (truthy_str _); [destruct (PyStr.py_int _)|]; simpl;
        unfold backoff_factor, max_delay; qminmax; lra.
    + destruct (_ || _)%bool; simpl.
      * unfold max_delay; qminmax; lra.
      * apply analyse_remaining_bounds.
        destruct (status_code r =? 200)%Z; [|exact Hb].
        destruct (0 <? consecutive_errors st)%Z; [|exact Hb].
        unfold delay_in_bounds, min_delay, max_delay; simpl; qminmax; lra.
  - unfold transport_failure, max_delay. simpl. qminmax; lra.
Qed.

Lemma trace_bounds os st :
  delay_in_bounds st -> Forall delay_in_bounds (trace os st).
Proof.
  revert st. induction os as [|o os IH]; intros st Hst; simpl; constructor.
  - now apply observe_bounds.
  - apply IH. now apply observe_bounds.
Qed.

(** C1: from the initial [RateLimitInfo()], after every observation of any
    sequence of HTTP outcomes (429 with or without a parseable Retry-After,
    502/503/504, 200, any other status, transport failure), [current_delay]
    lies in [[min_delay, max_delay]] = [[0.1, 10.0]]. *)
Theorem current_delay_bounded (os : list observation) :
  Forall delay_in_bounds (trace os initial).
Proof.
  apply trace_bounds. unfold delay_in_bounds, initial, min_delay, max_delay; simpl; lra.
Qed.

(** C7 (code_bug evaluation): a 429 with [Retry-After: 0] stores
    [retry_after = 0] ([int("0")] parses); the next [_adaptive_delay] tests
    [if self.rate_limit.retry_after:], which is false for 0, so it sleeps
    [current_delay] (1.5) instead of [0 + 0.5], and neither clears
    [retry_after] nor resets [is_limited]. *)
Lemma retry_after_zero_not_consumed :
  let st := snd (check_rate_limits
                   {| status_code := 429; headers := [("Retry-After", "0")] |} initial) in
  retry_after st = Some 0%Z /\
  adaptive_delay (3 # 10) 0 st =
    Slept (3 # 2) {| is_limited := true; retry_after := Some 0%Z; current_delay := 3 # 2;
                     consecutive_errors := 1; last_request_time := Some 0 |}.
Proof. vm_compute. split; reflexivity. Qed.

(** C8 (counterexample): a 429 carrying a parseable [Retry-After] and
    [X-RateLimit-Remaining: 5] leaves [current_delay] at 1.5 < 2.0: the 429
    branch returns before the quota header is read. *)
Lemma low_quota_ignored_on_429 :
  PyStr.py_int "5" = Some 5%Z /\
  current_delay (snd (check_rate_limits
     {| status_code := 429;
        headers := [("Retry-After", "30"); ("X-RateLimit-Remaining", "5")] |} initial)) < 2.
Proof. split; vm_compute; reflexivity. Qed.

Lemma analyse_remaining_floor r st s n :
  remaining_header r = Some s -> s <> ""%string -> PyStr.py_int s = Some n -> (n < 10)%Z ->
  2 <= current_delay (analyse_remaining r st).
Proof.
  intros Hr Hs Hn Hlt. unfold analyse_remaining. rewrite Hr. simpl.
  destruct (String.eqb_spec s ""); [contradiction|]. simpl. rewrite Hn.
  destruct (Z.ltb_spec n 10); [|lia]. simpl. qminmax; lra.
Qed.

(** C8 (amended): for a response whose status is not 429, 502, 503 or 504,
    if the remaining-quota header (X-RateLimit-Remaining, or
    X-Rate-Limit-Remaining when the first is absent or empty) is non-empty and
    parses to an integer below 10, [current_delay] is at least 2.0 afterwards;
    for a 429 or 502/503/504 response the outcome depends on the status and
    the Retry-After header only, so the quota header is never consulted. *)
Theorem low_quota_floor :
  (forall (r : response) (st : rate_limit) (s : string) (n : Z),
     ~ In (status_code r) [429; 502; 503; 504]%Z ->
     remaining_header r = Some s -> s <> ""%string -> PyStr.py_int s = Some n -> (n < 10)%Z ->
     2 <= current_delay (snd (check_rate_limits r st))) /\
  (forall (r r' : response) (st : rate_limit),
     In (status_code r) [429; 502; 503; 504]%Z -> status_code r = status_code r' ->
     header_get (headers r) "Retry-After" = header_get (headers r') "Retry-After" ->
     check_rate_limits r st = check_rate_limits r' st).
Proof.
  split.
  - intros r st s n Hst Hr Hs Hn Hlt. unfold check_rate_limits.
    destruct (Z.eqb_spec (status_code r) 429) as [E|_]; [exfalso; apply Hst; rewrite E; simpl; auto|].
    destruct (Z.eqb_spec (status_code r) 502) as [E|_]; [exfalso; apply Hst; rewrite E; simpl; auto|].
    destruct (Z.eqb_spec (status_code r) 503) as [E|_]; [exfalso; apply Hst; rewrite E; simpl; auto|].
    destruct (Z.eqb_spec (status_code r) 504) as [E|_]; [exfalso; apply Hst; rewrite E; simpl; auto|].
    simpl. eapply analyse_remaining_floor; eauto.
  - intros r r' st Hin Hs Hra. unfold check_rate_limits. rewrite <- Hs, <- Hra.
    simpl in Hin. destruct Hin as [E|[E|[E|[E|[]]]]]; rewrite <- E; reflexivity.
Qed.

Lemma low_quota_floor_witness :
  ~ In 200%Z [429; 502; 503; 504]%Z /\
  2 <= current_delay (snd (check_rate_limits
         {| status_code := 200; headers := [("x-ratelimit-remaining", "3")] |} initial)).
Proof.
  split; [simpl; lia|].
  apply (proj1 low_quota_floor
           {| status_code := 200; headers := [("x-ratelimit-remaining", "3")] |}
           initial "3" 3%Z).
  - simpl. lia.
  - reflexivity.
  - discriminate.
  - reflexivity.
  - lia.
Defined.

End RateProofs.

Module NormalizerProofs.

Lemma append_cons_nonempty (a b : string) (c : ascii) : (a ++ String c b)%string <> ""%string.
Proof. destruct a; discriminate. Qed.

Lemma parse_old_hearing_date off e r :
  parse_old off e = Some r ->
  exists hd0 hd, get e "hearingDate" = Some hd0 /\ convert_hearing_date off hd0 = Some hd /\
            hearing_date r = (if truthy hd then hd else JStr "").
Proof.
  unfold parse_old. intros H.
  repeat match type of H with
  | (?x ≫= _) = _ =>
      let E := fresh "E" in destruct x eqn:E; cbn [mbind option_bind] in H; try discriminate
  | (if ?b then _ else _) = _ =>
      let E := fresh "E" in destruct b eqn:E; try discriminate
  end.
  all: injection H as <-; eauto.
Qed.

(** C4 (counterexample): in a process whose local time is UTC+5
    (Asia/Tashkent), the old-schema entry with [hearingDate = 1700000000000]
    gets [hearing_date = "2023-11-15T03:13:20"], while the UTC conversion of
    that timestamp is ["2023-11-14T22:13:20"]: [datetime.fromtimestamp]
    converts to local time. *)
Lemma hearing_date_is_local_time :
  option_map hearing_date
    (parse_decision_from_json Samples.tashkent_offset Samples.old_entry "old")
    = Some (JStr "2023-11-15T03:13:20") /\
  DateTime.utc_iso 1700000000000 = Some "2023-11-14T22:13:20"%string.
Proof. split; vm_compute; reflexivity. Qed.

Lemma iso_string_nonempty local us : DateTime.iso_string local us <> ""%string.
Proof.
  unfold DateTime.iso_string. destruct (DateTime.civil_from_days _) as [[y m] d].
  apply append_cons_nonempty.
Qed.

Lemma from_timestamp_nonempty off ms s : DateTime.from_timestamp off ms = Some s -> s <> ""%string.
Proof.
  unfold DateTime.from_timestamp. destruct (DateTime.to_double _) as [x|]; simpl; [|discriminate].
  destruct (DateTime.to_timeval x) as [[t us]|]; [|discriminate].
  destruct (_ && _)%bool; [|discriminate]. intros [= <-]. apply iso_string_nonempty.
Qed.

(** C4 (amended): for every old-schema entry, a nonzero integer
    [hearingDate] (epoch milliseconds) is replaced by
    [datetime.fromtimestamp(hearingDate / 1000).isoformat()], the wall-clock
    time of the instant in the process's local time zone: when the entry
    yields a record, its [hearing_date] is that string; when the conversion
    raises (a local year outside 1..9999 for the instant or for the fold
    probes), the entry is dropped.  A [hearingDate] of 0, [null] or missing
    yields the empty string. *)
Theorem old_hearing_date_conversion (off : Z -> Z) (e : json) :
  (forall r, parse_decision_from_json off e "old" = Some r ->
     (forall ms, get e "hearingDate" = Some (JInt ms) -> ms <> 0 ->
        exists s, DateTime.from_timestamp off ms = Some s /\ hearing_date r = JStr s) /\
     (get e "hearingDate" = Some (JInt 0) -> hearing_date r = JStr "") /\
     (get e "hearingDate" = Some JNull -> hearing_date r = JStr "")) /\
  (forall ms, get e "hearingDate" = Some (JInt ms) -> ms <> 0 ->
     DateTime.from_timestamp off ms = None -> parse_decision_from_json off e "old" = None).
Proof.
  unfold parse_decision_from_json. simpl. split.
  - intros r H.
    destruct (parse_old_hearing_date _ _ _ H) as (hd0 & hd & Hg & Hc & Hr).
    rewrite Hg. split; [|split].
    + intros ms [= ->] Hms. simpl in Hc.
      destruct (Z.eqb_spec ms 0); [contradiction|]. simpl in Hc.
      destruct (DateTime.from_timestamp off ms) as [s|] eqn:Ef; [|discriminate].
      injection Hc as <-. exists s. split; [reflexivity|].
      rewrite Hr. simpl. destruct (String.eqb_spec s ""); simpl; [|reflexivity].
      exfalso. exact (from_timestamp_nonempty _ _ _ Ef e0).
    + intros [= ->]. simpl in Hc. injection Hc as <-. exact Hr.
    + intros [= ->]. simpl in Hc. injection Hc as <-. exact Hr.
  - intros ms Hg Hms Hf. destruct (parse_old off e) as [r|] eqn:H; [|reflexivity].
    exfalso. destruct (parse_old_hearing_date _ _ _ H) as (hd0 & hd & Hg' & Hc & _).
    rewrite Hg in Hg'. injection Hg' as <-. simpl in Hc.
    destruct (Z.eqb_spec ms 0); [contradiction|]. simpl in Hc. rewrite Hf in Hc. discriminate.
Qed.

(** The Tashkent sample, and the entry dated 0001-01-01T00:00:00 UTC: its
    local time is in year 1, but the fold probe one day earlier is in year
    0, so [fromtimestamp] raises and the entry is dropped. *)
Lemma old_hearing_date_conversion_witness :
  (exists s, DateTime.from_timestamp Samples.tashkent_offset 1700000000000 = Some s /\
             hearing_date Samples.old_entry_decision = JStr s) /\
  parse_decision_from_json Samples.tashkent_offset Samples.old_entry_year1 "old" = None.
Proof.
  assert (Hp : parse_decision_from_json Samples.tashkent_offset Samples.old_entry "old" =
                 Some Samples.old_entry_decision) by (vm_compute; reflexivity).
  split.
  - exact (proj1 (proj1 (old_hearing_date_conversion _ _) _ Hp) 1700000000000 eq_refl
             ltac:(discriminate)).
  - exact (proj2 (old_hearing_date_conversion Samples.tashkent_offset Samples.old_entry_year1)
             (-62135596800000) eq_refl
             ltac:(discriminate) ltac:(vm_compute; reflexivity)).
Defined.

End NormalizerProofs.

Module BatchProofs.
Import Batch.

(** The record part of [process_one]. *)
Definition updated (page : Z) (outs : list task_result) (woks : list bool) (i : nat)
  (d : decision) : decision :=
  fst (process_one page i (outcome outs i) (write_ok_at woks i) d).

Definition fresh (d : decision) : Prop :=
  text_file_path d = None /\ text_file_relative_path d = None.

Lemma run_order_length page outs woks order st evs :
  List.length (fst (run_order page outs woks order st evs)) = List.length st.
Proof.
  revert st evs. induction order as [|i order IH]; intros st evs; simpl; [reflexivity|].
  destruct (st !! i); rewrite IH; [apply length_insert|reflexivity].
Qed.

Lemma run_order_lookup page outs woks order st evs j :
  NoDup order ->
  fst (run_order page outs woks order st evs) !! j =
    if decide (j ∈ order) then updated page outs woks j <$> st !! j else st !! j.
Proof.
  revert st evs. induction order as [|i order IH]; intros st evs Hnd; simpl.
  - reflexivity.
  - apply NoDup_cons in Hnd as [Hi Hnd].
    destruct (st !! i) as [d|] eqn:Hsi.
    + rewrite IH by exact Hnd.
      destruct (decide (j ∈ order)) as [Hj|Hj];
        destruct (decide (j ∈ i :: order)) as [Hj'|Hj']; try set_solver.
      * rewrite list_lookup_insert_ne; [reflexivity|]. intros ->. contradiction.
      * destruct (decide (i = j)) as [<-|Hne].
        -- rewrite list_lookup_insert_eq by (eapply lookup_lt_Some; eauto).
           rewrite Hsi. reflexivity.
        -- set_solver.
      * apply list_lookup_insert_ne. intros ->. set_solver.
    + rewrite IH by exact Hnd.
      destruct (decide (j ∈ order)) as [Hj|Hj];
        destruct (decide (j ∈ i :: order)) as [Hj'|Hj']; try set_solver; try reflexivity.
      destruct (decide (i = j)) as [<-|Hne].
      * rewrite Hsi. reflexivity.
      * set_solver.
Qed.

(** Whatever the completion order, record [i] of the result is record [i] of
    the input updated with its own task outcome and write outcome. *)
Lemma batch_pointwise page outs woks order ds ds' evs :
  order ≡ₚ seq 0 (List.length ds) ->
  download_pdfs_batch page outs woks order ds = Some (ds', evs) ->
  List.length ds' = List.length ds /\
  forall i, ds' !! i = updated page outs woks i <$> ds !! i.
Proof.
  intros Hperm Hb. unfold download_pdfs_batch in Hb.
  destruct (mapM create_safe_filename ds) eqn:Hm; simpl in Hb; [|discriminate].
  injection Hb as Hb. replace ds' with (fst (ds', evs)) by reflexivity.
  assert (Hnd : NoDup order) by (rewrite Hperm; apply NoDup_seq).
  split.
  - rewrite <- Hb, run_order_length. reflexivity.
  - intros i. rewrite <- Hb, run_order_lookup by exact Hnd.
    destruct (decide (i ∈ order)) as [Hi|Hi]; [reflexivity|].
    rewrite Hperm, elem_of_seq in Hi.
    assert (ds !! i = None) as -> by (apply lookup_ge_None_2; lia). reflexivity.
Qed.


Lemma updated_paths page outs woks i d :
  (text_extraction_success (updated page outs woks i d) = false ->
     text_file_path (updated page outs woks i d) = text_file_path d /\
     text_file_relative_path (updated page outs woks i d) = text_file_relative_path d) /\
  (text_extraction_success (updated page outs woks i d) = true ->
     (write_ok_at woks i = true ->
        is_Some (text_file_path (updated page outs woks i d)) /\
        is_Some (text_file_relative_path (updated page outs woks i d))) /\
     (write_ok_at woks i = false ->
        text_file_path (updated page outs woks i d) = None /\
        text_file_relative_path (updated page outs woks i d) = None)).
Proof.
  unfold updated, process_one. destruct (outcome outs i) as [|[t|]]; simpl.
  - split; [auto|discriminate].
  - destruct (String.eqb t "") eqn:Ht; simpl; [split; [auto|discriminate]|].
    unfold save_decision_with_text. simpl. rewrite Ht. simpl.
    destruct (create_safe_filename _) as [safe|]; simpl.
    + destruct (write_ok_at woks i); simpl.
      * split; [discriminate|]. split; [eauto|discriminate].
      * split; [discriminate|]. split; [discriminate|auto].
    + split; [auto|discriminate].
  - split; [auto|discriminate].
Qed.

(** C2 (counterexample): a record whose text is extracted but whose text
    file cannot be written ends with [text_extraction_success = True] and
    both path fields [None]. *)
Lemma extracted_but_text_write_failed :
  option_map (fun r => map (fun d => (text_extraction_success d, text_file_path d,
                                      text_file_relative_path d)) (fst r))
    (download_pdfs_batch 0 [TReturn (Some "The economic court decided ...")] [false] [0%nat]
                         [Samples.old_entry_decision])
  = Some [(true, None, None)].
Proof. vm_compute. reflexivity. Qed.

Lemma batch_names page outs woks order ds r :
  download_pdfs_batch page outs woks order ds = Some r ->
  forall i d, ds !! i = Some d -> is_Some (create_safe_filename d).
Proof.
  unfold download_pdfs_batch.
  destruct (mapM create_safe_filename ds) as [names|] eqn:E; simpl; [|discriminate].
  intros _ i d Hd. apply mapM_Some_1 in E.
  destruct (Forall2_lookup_l _ _ _ _ _ E Hd) as (y & _ & Hy). eauto.
Qed.

Lemma updated_succeeded page outs woks i d :
  is_Some (create_safe_filename d) ->
  task_failed (outcome outs i) = false ->
  text_extraction_success (updated page outs woks i d) = true /\
  (write_ok_at woks i = false ->
     text_file_path (updated page outs woks i d) = None /\
     text_file_relative_path (updated page outs woks i d) = None).
Proof.
  intros [nm Hn]. unfold updated, process_one, task_failed.
  destruct (outcome outs i) as [|[t|]]; try discriminate.
  intros Ht. rewrite Ht. cbn [negb].
  unfold save_decision_with_text. simpl. rewrite Ht. simpl.
  assert (Hn' : create_safe_filename (set_success (set_text d t) true) = Some nm) by exact Hn.
  rewrite Hn'. simpl.
  destruct (write_ok_at woks i); simpl; split; auto; discriminate.
Qed.

(** C2 (amended): after the batch, for records that entered it with null
    text paths (as the normalizer creates them): [text_extraction_success =
    false] implies both paths are null; [text_extraction_success = true]
    implies both paths are non-null when the text-file write succeeded and
    both null when it failed; and a record whose task returned non-empty
    text ends with [text_extraction_success = true] even when its text-file
    write fails, with both paths null. *)
Theorem text_paths_follow_write (page : Z) (outs : list task_result) (woks : list bool)
  (order : list nat) (ds ds' : list decision) (evs : list event) :
  Forall fresh ds ->
  order ≡ₚ seq 0 (List.length ds) ->
  download_pdfs_batch page outs woks order ds = Some (ds', evs) ->
  forall i d', ds' !! i = Some d' ->
    (text_extraction_success d' = false ->
       text_file_path d' = None /\ text_file_relative_path d' = None) /\
    (text_extraction_success d' = true -> write_ok_at woks i = true ->
       is_Some (text_file_path d') /\ is_Some (text_file_relative_path d')) /\
    (text_extraction_success d' = true -> write_ok_at woks i = false ->
       text_file_path d' = None /\ text_file_relative_path d' = None) /\
    (task_failed (outcome outs i) = false -> write_ok_at woks i = false ->
       text_extraction_success d' = true /\
       text_file_path d' = None /\ text_file_relative_path d' = None).
Proof.
  intros Hfr Hperm Hb i d' Hi.
  destruct (batch_pointwise _ _ _ _ _ _ _ Hperm Hb) as [_ Hpt].
  rewrite Hpt in Hi. destruct (ds !! i) as [d|] eqn:Hd; simpl in Hi; [|discriminate].
  injection Hi as <-.
  assert (Hf : fresh d) by (eapply Forall_lookup_1; eauto). destruct Hf as [Hp Hr].
  destruct (updated_paths page outs woks i d) as [H1 H2].
  split; [|split; [|split]].
  - intros E. destruct (H1 E) as [-> ->]. auto.
  - intros E W. exact (proj1 (H2 E) W).
  - intros E W. exact (proj2 (H2 E) W).
  - intros Hok W.
    destruct (updated_succeeded page outs woks i d (batch_names _ _ _ _ _ _ Hb i d Hd) Hok)
      as [E Hw].
    split; [exact E|exact (Hw W)].
Qed.

Lemma text_paths_follow_write_witness :
  (exists ds' evs,
    download_pdfs_batch 0 [TReturn (Some "The economic court decided ...")] [true] [0%nat]
                        [Samples.old_entry_decision] = Some (ds', evs) /\
    forall d', ds' !! 0%nat = Some d' -> text_extraction_success d' = true ->
      is_Some (text_file_path d') /\ is_Some (text_file_relative_path d')) /\
  (exists ds' evs,
    download_pdfs_batch 0 [TReturn (Some "The economic court decided ...")] [false] [0%nat]
                        [Samples.old_entry_decision] = Some (ds', evs) /\
    forall d', ds' !! 0%nat = Some d' ->
      text_extraction_success d' = true /\
      text_file_path d' = None /\ text_file_relative_path d' = None).
Proof.
  split; cycle 1.
  { destruct (download_pdfs_batch 0 [TReturn (Some "The economic court decided ...")] [false]
                [0%nat] [Samples.old_entry_decision]) as [[ds' evs]|] eqn:E;
      [|vm_compute in E; discriminate].
    exists ds', evs. split; [reflexivity|]. intros d' Hd'.
    refine (proj2 (proj2 (proj2 (text_paths_follow_write 0 _ _ _ _ _ _ _ _ E 0 d' Hd')))
              eq_refl eq_refl).
    - constructor; [split; reflexivity|constructor].
    - reflexivity. }
  destruct (download_pdfs_batch 0 [TReturn (Some "The economic court decided ...")] [true]
              [0%nat] [Samples.old_entry_decision]) as [[ds' evs]|] eqn:E;
    [|vm_compute in E; discriminate].
  exists ds', evs. split; [reflexivity|]. intros d' Hd' Hs.
  refine (proj1 (proj2 (text_paths_follow_write 0 _ _ _ _ _ _ _ _ E 0 d' Hd')) Hs _).
  - constructor; [split; reflexivity|constructor].
  - reflexivity.
  - reflexivity.
Defined.

End BatchProofs.

Module OrchestratorProofs.
Import Batch Orchestrator BatchProofs.

Lemma mk_decision_fresh a b c d e f g h i j k l m n :
  fresh (mk_decision a b c d e f g h i j k l m n).
Proof. split; reflexivity. Qed.

Ltac inv_binds H :=
  repeat match type of H with
  | (?x ≫= _) = _ =>
      let E := fresh "E" in destruct x eqn:E; cbn [mbind option_bind] in H; try discriminate
  | (if ?b then _ else _) = _ =>
      let E := fresh "E" in destruct b eqn:E; try discriminate
  end.

Lemma parse_fresh off x period r :
  parse_decision_from_json off x period = Some r -> fresh r.
Proof.
  unfold parse_decision_from_json. destruct (String.eqb period "new").
  - unfold parse_new. intros H. inv_binds H. injection H as <-. apply mk_decision_fresh.
  - unfold parse_old. intros H. inv_binds H. injection H as <-. apply mk_decision_fresh.
Qed.

Lemma page_records_fresh e period v ds :
  page_records e period v = Some ds -> Forall fresh ds.
Proof.
  unfold page_records. intros H. inv_binds H. injection H as <-.
  apply Forall_forall. intros d Hd. apply list_elem_of_omap in Hd as (x & _ & Hx).
  eapply parse_fresh; eauto.
Qed.

(** C6 (counterexample): resuming the old section from page 0 without
    overwrite when the metadata of pages 0..2 exists skips the three pages,
    and [pages_processed] stays 0. *)
Lemma skipped_pages_not_counted :
  let w' := final_world (run_section Samples.env_ok "old" None true false 0 None
                                     Samples.world_all_written) in
  pages_processed w' = 0 /\
  log w' = [EFetch "old" 0; ESkip 0; ESkip 1; ESkip 2].
Proof. vm_compute. split; reflexivity. Qed.

(** C6 (amended): a page of the range whose metadata file exists, when
    overwrite is not requested, is skipped without fetching it and without
    incrementing [pages_processed]: the step only logs the skip. *)
Theorem existing_page_skipped (e : env) (period : string) (start : Z) (fpd : json)
  (end_ : Z) (download : bool) (page : Z) (w : world) :
  is_Some (meta w !! metadata_file period page) ->
  page_step e period start fpd end_ false download page w =
    Ok tt {| meta := meta w; pages_processed := pages_processed w;
             decisions_found := decisions_found w; all_decisions := all_decisions w;
             log := log w ++ [ESkip page] |}.
Proof.
  intros Hex. unfold page_step, skip_test. simpl.
  rewrite bool_decide_eq_true_2 by exact Hex. reflexivity.
Qed.

Lemma existing_page_skipped_witness :
  is_Some (meta Samples.world_all_written !! metadata_file "old" 1) /\
  page_step Samples.env_ok "old" 0 Samples.old_page 3 false true 1 Samples.world_all_written =
    Ok tt {| meta := meta Samples.world_all_written; pages_processed := 0;
             decisions_found := 0; all_decisions := []; log := [ESkip 1] |}.
Proof.
  assert (H : is_Some (meta Samples.world_all_written !! metadata_file "old" 1))
    by (vm_compute; eexists; reflexivity).
  split; [exact H|].
  exact (existing_page_skipped Samples.env_ok "old" 0 Samples.old_page 3 true 1
           Samples.world_all_written H).
Defined.



Lemma process_one_events page i o wok d :
  Forall not_meta_write (snd (process_one page i o wok d)).
Proof.
  unfold process_one, save_decision_with_text.
  destruct o as [|[t|]]; simpl; [repeat constructor; discriminate| |repeat constructor; discriminate].
  destruct (String.eqb t ""); simpl; [repeat constructor; discriminate|].
  destruct (create_safe_filename _); simpl; [|repeat constructor; discriminate].
  destruct wok; repeat constructor; discriminate.
Qed.

Lemma run_order_events page outs woks order st evs0 :
  exists rest, snd (run_order page outs woks order st evs0) = evs0 ++ rest /\
               Forall not_meta_write rest.
Proof.
  revert st evs0. induction order as [|i order IH]; intros st evs0; simpl.
  - exists []. rewrite app_nil_r. auto.
  - destruct (st !! i) as [d|].
    + destruct (IH (<[i:=fst (process_one page i (outcome outs i) (write_ok_at woks i) d)]> st)
                   (evs0 ++ snd (process_one page i (outcome outs i) (write_ok_at woks i) d)))
        as (rest & Hr & Hf).
      eexists. rewrite Hr, <- app_assoc. split; [reflexivity|].
      apply Forall_app. split; [apply process_one_events|exact Hf].
    + apply IH.
Qed.

Lemma batch_events page outs woks order ds ds' evs :
  download_pdfs_batch page outs woks order ds = Some (ds', evs) ->
  exists rest, evs = imap (fun i _ => ETaskStart page i) ds ++ rest /\
               Forall not_meta_write rest.
Proof.
  unfold download_pdfs_batch. intros H.
  destruct (mapM create_safe_filename ds); simpl in H; [|discriminate].
  injection H as H.
  destruct (run_order_events page outs woks order ds (imap (fun i _ => ETaskStart page i) ds))
    as (rest & Hr & Hf).
  rewrite H in Hr. simpl in Hr. eauto.
Qed.

(** C3 (counterexample): after page 1 is processed with attachment
    processing, its record in memory carries the text path, but the page's
    metadata file still holds [text_file_path: null] when the loop moves on
    ([EPageDone 1] is the last event): the patches are not re-persisted. *)
Lemma text_paths_not_repersisted :
  let w' := final_world (run_section Samples.env_ok "old" None true false 1 (Some 1)
                                     Samples.empty_world) in
  (meta w' !! "page_old_0001.json"%string ≫=
     (fun j => match j with JArr [o] => subscript o "text_file_path" | _ => None end))
    = Some JNull /\
  map text_file_path (all_decisions w') = [Some "extracted_text/4-1001-2301_77_42.txt"%string] /\
  last (log w') = Some (EPageDone 1).
Proof. vm_compute. repeat split; reflexivity. Qed.

(** C3 (amended): for a processed page with a non-empty record list and
    attachment processing enabled, the step writes the page's metadata file
    once, with the records as normalized (null text paths), before any
    attachment task is submitted; the batch's events (task starts first)
    contain no metadata write, so the file keeps that content when the loop
    advances, while the records collected in memory carry the patches. *)
Theorem metadata_written_once_before_tasks (e : env) (period : string) (start : Z)
  (fpd : json) (end_ : Z) (overwrite : bool) (page : Z) (v : json) (evf : list event)
  (ds ds' : list decision) (evs : list event) (w : world) :
  skip_test overwrite (meta w) period page = false ->
  fetch_page e period start fpd page = (Fetched (Some v), evf) ->
  page_records e period v = Some ds -> ds <> [] ->
  download_pdfs_batch page (map (attach e period page) (seq 0 (List.length ds)))
    (map (text_write_ok e period page) (seq 0 (List.length ds)))
    (completion e period page (List.length ds)) ds = Some (ds', evs) ->
  page_step e period start fpd end_ overwrite true page w =
    pause e period end_ page {| meta := <[metadata_file period page := JArr (map to_dict ds)]> (meta w);
             pages_processed := pages_processed w + 1;
             decisions_found := decisions_found w + Z.of_nat (List.length ds);
             all_decisions := all_decisions w ++ ds';
             log := (((log w ++ evf) ++ [EMetaWrite (metadata_file period page)]) ++ evs)
                    ++ [EPageDone page] |} /\
  Forall fresh ds /\
  Forall not_meta_write evf /\
  exists rest, evs = imap (fun i _ => ETaskStart page i) ds ++ rest /\
               Forall not_meta_write rest.
Proof.
  intros Hskip Hfp Hrec Hne Hb. split; [|split; [|split]].
  - unfold page_step. rewrite Hskip. unfold page_process. rewrite Hfp.
    unfold bind, emit, modify, lift, ret, count_page, save_metadata, count_found, collect.
    simpl. rewrite Hrec. destruct ds as [|d ds0]; [contradiction|]. simpl.
    simpl in Hb. rewrite Hb. reflexivity.
  - eapply page_records_fresh; eauto.
  - revert Hfp. unfold fetch_page.
    destruct ((page =? start) && (start =? 0))%bool; [intros [= _ <-]; constructor|].
    destruct (fetch e period page) as [[x|]|]; [destruct (truthy x)| |]; intros [= _ <-];
      repeat constructor; discriminate.
  - eapply batch_events; eauto.
Qed.

Lemma metadata_written_once_before_tasks_witness :
  page_step Samples.env_ok "old" 0 Samples.old_page 3 false true 1 Samples.empty_world =
    pause Samples.env_ok "old" 3 1
          {| meta := <[metadata_file "old" 1 := JArr (map to_dict Samples.page1_records)]> ∅;
             pages_processed := 0 + 1;
             decisions_found := 0 + Z.of_nat (List.length Samples.page1_records);
             all_decisions := [] ++ fst Samples.page1_batch;
             log := ((([] ++ [EFetch "old" 1]) ++ [EMetaWrite (metadata_file "old" 1)])
                     ++ snd Samples.page1_batch) ++ [EPageDone 1] |}.
Proof.
  exact (proj1 (metadata_written_once_before_tasks Samples.env_ok "old" 0 Samples.old_page
    3 false 1 Samples.old_page [EFetch "old" 1] Samples.page1_records
    (fst Samples.page1_batch) (snd Samples.page1_batch) Samples.empty_world
    ltac:(vm_compute; reflexivity) ltac:(vm_compute; reflexivity)
    ltac:(vm_compute; reflexivity) ltac:(vm_compute; discriminate)
    ltac:(vm_compute; reflexivity))).
Defined.





End OrchestratorProofs.

Module ClientProofs.
Import Client ExtraSamples.

Lemma list_ascii_app (s1 s2 : string) :
  list_ascii_of_string (String.append s1 s2) = list_ascii_of_string s1 ++ list_ascii_of_string s2.
Proof. induction s1 as [|a s1 IH]; simpl; [reflexivity|]. rewrite IH. reflexivity. Qed.

Lemma length_list_ascii (s : string) : String.length s = List.length (list_ascii_of_string s).
Proof. induction s; simpl; auto. Qed.

Definition nonspace (c : ascii) : Prop := py_space c = false.

Definition word_ok (w : list ascii) : Prop := w <> [] /\ Forall nonspace w.

Lemma words_ok l cur : Forall nonspace cur -> Forall word_ok (words l cur).
Proof.
  revert cur. induction l as [|c l IH]; intros cur Hc; simpl.
  - destruct cur; constructor; [|constructor]. split; [|apply Forall_rev; auto].
    intros H. apply (f_equal (@List.length ascii)) in H. rewrite length_rev in H. simpl in H. lia.
  - destruct (py_space c) eqn:E.
    + destruct cur; [apply IH; constructor|]. constructor; [|apply IH; constructor].
      split; [|apply Forall_rev; auto].
      intros H. apply (f_equal (@List.length ascii)) in H. rewrite length_rev in H. simpl in H. lia.
    + apply IH. constructor; auto.
Qed.

Lemma words_cur_nonempty l cur : cur <> [] -> words l cur <> [].
Proof.
  revert cur. induction l as [|c l IH]; intros cur Hc; simpl.
  - destruct cur; [congruence|discriminate].
  - destruct (py_space c); [destruct cur; [congruence|discriminate]|apply IH; discriminate].
Qed.

Lemma words_nonempty l cur : Exists nonspace l -> words l cur <> [].
Proof.
  revert cur. induction l as [|c l IH]; intros cur Hx; [inversion Hx|]. simpl.
  destruct (py_space c) eqn:E.
  - inversion Hx as [? ? Hn|? ? Hl]; subst; [unfold nonspace in Hn; congruence|].
    destruct cur; [apply IH; auto|discriminate].
  - apply words_cur_nonempty. discriminate.
Qed.

Lemma space_or_nonspace (l : list ascii) : Forall (fun c => py_space c = true) l \/ Exists nonspace l.
Proof.
  induction l as [|c l IH]; [left; constructor|].
  destruct (py_space c) eqn:E.
  - destruct IH; [left; constructor; auto|right; apply Exists_cons; auto].
  - right. apply Exists_cons. left. exact E.
Qed.

Lemma lstrip_all_space l : Forall (fun c => py_space c = true) l -> lstrip l = [].
Proof. induction 1 as [|c l Hc _ IH]; simpl; [reflexivity|]. rewrite Hc. exact IH. Qed.

Lemma strip_nonempty_exists (t : string) :
  py_strip t <> "" -> Exists nonspace (list_ascii_of_string t).
Proof.
  intros H. destruct (space_or_nonspace (list_ascii_of_string t)) as [Hs|]; [|auto].
  exfalso. apply H. unfold py_strip. rewrite (lstrip_all_space _ Hs). reflexivity.
Qed.

(** A text made of non-whitespace, spaces and newlines, starting and ending
    with non-whitespace. *)
Definition allowed (c : ascii) : Prop := nonspace c \/ c = " "%char \/ c = ascii_of_nat 10.

Definition clean (l : list ascii) : Prop :=
  Forall allowed l /\ (forall a, head l = Some a -> nonspace a) /\
  (forall b, last l = Some b -> nonspace b).

Lemma head_app_ne (l1 l2 : list ascii) : l1 <> [] -> head (l1 ++ l2) = head l1.
Proof. destruct l1; [congruence|reflexivity]. Qed.

Lemma last_app_ne (l1 l2 : list ascii) : l2 <> [] -> last (l1 ++ l2) = last l2.
Proof.
  intros H. rewrite last_app. destruct (last l2) eqn:E; [reflexivity|].
  apply last_None in E. contradiction.
Qed.

Lemma concat_sep_clean (sep : string) (xs : list string) :
  Forall allowed (list_ascii_of_string sep) ->
  Forall (fun x => list_ascii_of_string x <> [] /\ clean (list_ascii_of_string x)) xs ->
  xs <> [] -> list_ascii_of_string (concat_sep sep xs) <> [] /\
             clean (list_ascii_of_string (concat_sep sep xs)).
Proof.
  intros Hsep Hxs. induction Hxs as [|x xs [Hx1 Hx2] Hrest IH]; [congruence|].
  intros _. destruct xs as [|y ys]; [simpl; auto|].
  destruct (IH ltac:(discriminate)) as [Hne Hcl].
  change (concat_sep sep (x :: y :: ys)) with (String.append x (String.append sep (concat_sep sep (y :: ys)))).
  rewrite !list_ascii_app.
  destruct Hx2 as (Hxa & Hxh & Hxl). destruct Hcl as (Hca & Hch & Hcl).
  split; [destruct (list_ascii_of_string x); [congruence|discriminate]|].
  split; [|split].
  - apply Forall_app. split; [exact Hxa|]. apply Forall_app. auto.
  - rewrite head_app_ne by exact Hx1. exact Hxh.
  - rewrite app_assoc, last_app_ne by exact Hne. exact Hcl.
Qed.

Lemma word_clean (w : list ascii) : word_ok w ->
  list_ascii_of_string (string_of_list_ascii w) <> [] /\
  clean (list_ascii_of_string (string_of_list_ascii w)).
Proof.
  rewrite list_ascii_of_string_of_list_ascii. intros [Hne Hf]. split; [exact Hne|].
  split; [|split].
  - eapply Forall_impl; [exact Hf|]. intros c Hc. left. exact Hc.
  - intros a Ha. destruct w as [|c w]; [discriminate|]. simpl in Ha. injection Ha as <-.
    inversion Hf; auto.
  - intros b Hb. apply last_Some_elem_of in Hb. rewrite Forall_forall in Hf. auto.
Qed.

Lemma clean_strip (l : list ascii) : clean l -> rev (lstrip (rev (lstrip l))) = l.
Proof.
  intros (_ & Hh & Hl).
  assert (lstrip l = l) as ->.
  { destruct l as [|a l]; [reflexivity|]. simpl. specialize (Hh a eq_refl).
    unfold nonspace in Hh. rewrite Hh. reflexivity. }
  destruct l as [|b m _] using rev_ind; [reflexivity|].
  rewrite rev_unit. simpl. specialize (Hl b (last_snoc _ _)). unfold nonspace in Hl.
  rewrite Hl. simpl. rewrite rev_involutive. reflexivity.
Qed.

Lemma segment_clean (t : string) : py_strip t <> "" ->
  list_ascii_of_string (concat_sep " " (py_split t)) <> [] /\
  clean (list_ascii_of_string (concat_sep " " (py_split t))).
Proof.
  intros H. apply concat_sep_clean.
  - simpl. constructor; [right; left; reflexivity|constructor].
  - unfold py_split. apply Forall_map.
    eapply Forall_impl; [apply (words_ok _ []); constructor|]. intros w Hw. apply word_clean, Hw.
  - unfold py_split. intros Hm. apply map_eq_nil in Hm.
    exact (words_nonempty _ [] (strip_nonempty_exists t H) Hm).
Qed.

Lemma extract_text_spec (ps : list string) (c c' : client) (t : string) :
  extract_text_from_pdf (Some ps) c = (Some t, c') ->
  (50 <= String.length t)%nat /\ py_strip t = t /\
  Forall allowed (list_ascii_of_string t) /\ c' = bump_texts c.
Proof.
  unfold extract_text_from_pdf.
  set (segs := map (fun t => concat_sep " " (py_split t))
                   (List.filter (fun t => negb (String.eqb (py_strip t) "")) ps)).
  destruct (String.length (py_strip (concat_sep nl2 segs)) <? 50)%nat eqn:Hlen;
    [discriminate|]. intros [= <- <-].
  apply Nat.ltb_ge in Hlen.
  destruct segs as [|s0 segs'] eqn:Hsegs; [simpl in Hlen; lia|].
  rewrite <- Hsegs in *.
  assert (Hall : Forall (fun x => list_ascii_of_string x <> [] /\ clean (list_ascii_of_string x)) segs).
  { subst segs. apply Forall_map. apply Forall_forall. intros x Hx.
    apply list_elem_of_In, filter_In in Hx as [_ Hx]. apply segment_clean.
    destruct (String.eqb_spec (py_strip x) ""); [discriminate|assumption]. }
  destruct (concat_sep_clean nl2 segs) as [_ Hcl]; [|exact Hall|rewrite Hsegs; discriminate|].
  - simpl. repeat (constructor; [right; right; reflexivity|]). constructor.
  - assert (Hs : py_strip (concat_sep nl2 segs) = concat_sep nl2 segs).
    { unfold py_strip. rewrite clean_strip by exact Hcl. apply string_of_list_ascii_of_string. }
    rewrite Hs in Hlen. split; [exact Hlen|]. split; [exact Hs|]. split; [apply Hcl|reflexivity].
Qed.


Definition same_counters (c c' : client) : Prop :=
  pdfs_downloaded c' = pdfs_downloaded c /\ texts_extracted c' = texts_extracted c /\
  text_extraction_errors c' = text_extraction_errors c /\ errors c' = errors c.

Definition sent_client {B} (s : sent B) : client :=
  match s with Got _ _ c => c | ReqExc c => c | Escape c => c end.

Lemma delay_counters base now c d c' :
  delay base now c = Some (d, c') -> same_counters c c'.
Proof.
  unfold delay. destruct (Rate.adaptive_delay _ _ _); intros [= _ <-].
  repeat split.
Qed.

Lemma send_counters {B} base now (a1 a2 : attempt B) c s sl n :
  send base now a1 a2 c = (s, sl, n) -> same_counters c (sent_client s).
Proof.
  unfold send. destruct (delay base now c) as [[d c1]|] eqn:D1; [|intros [= <- _ _]; repeat split].
  apply delay_counters in D1 as (H1 & H2 & H3 & H4).
  destruct a1 as [r b|]; [|intros [= <- _ _]; repeat split; assumption].
  destruct (Rate.check_rate_limits r (rate c1)) as [ok st].
  destruct ok; [intros [= <- _ _]; repeat split; assumption|].
  destruct (delay base now (set_rate c1 st)) as [[d2 c3]|] eqn:D2;
    [|intros [= <- _ _]; repeat split; assumption].
  apply delay_counters in D2 as (G1 & G2 & G3 & G4). simpl in *.
  destruct a2; intros [= <- _ _]; repeat split; simpl; congruence.
Qed.













Lemma extract_none_counters ps c c' :
  extract_text_from_pdf (Some ps) c = (None, c') -> c' = c.
Proof.
  unfold extract_text_from_pdf. destruct (_ <? 50)%nat; intros [= <-]. reflexivity.
Qed.

(** X1: when [extract_text_from_pdf] returns a text, the text has at least
    50 characters, no leading or trailing whitespace, no whitespace other
    than single spaces and newlines, and [texts_extracted] has grown by one. *)
Theorem extracted_text_normalized (ps : list string) (c c' : client) (t : string) :
  extract_text_from_pdf (Some ps) c = (Some t, c') ->
  (50 <= String.length t)%nat /\ py_strip t = t /\
  Forall (fun ch => py_space ch = false \/ ch = " "%char \/ ch = ascii_of_nat 10)
         (list_ascii_of_string t) /\
  texts_extracted c' = texts_extracted c + 1.
Proof.
  intros H. destruct (extract_text_spec ps c c' t H) as (H1 & H2 & H3 & ->).
  split; [exact H1|]. split; [exact H2|]. split; [exact H3|reflexivity].
Qed.

(** X2: [download_pdf_and_extract_text] never changes the difference
    [pdfs_downloaded - texts_extracted]; when it returns a text, the text has
    at least 50 characters and both counters have grown by one. *)
Theorem pdfs_downloaded_tracks_texts base now a1 a2 c o sl n :
  download_pdf_and_extract_text base now a1 a2 c = (o, sl, n) ->
  pdfs_downloaded (outcome_client o) - texts_extracted (outcome_client o) =
    pdfs_downloaded c - texts_extracted c /\
  (forall t c', o = Returned (Some t) c' ->
     (50 <= String.length t)%nat /\ pdfs_downloaded c' = pdfs_downloaded c + 1 /\
     texts_extracted c' = texts_extracted c + 1).
Proof.
  unfold download_pdf_and_extract_text.
  destruct (send base now a1 a2 c) as [[s sl'] n'] eqn:S.
  apply send_counters in S as (H1 & H2 & _ & _).
  destruct s as [r pages c1|c1|c1]; simpl in H1, H2.
  - destruct (http_error r).
    + intros [= <- _ _]. simpl. split; [lia|]. intros t c' [=].
    + destruct (extract_text_from_pdf pages c1) as [t c''] eqn:X.
      destruct pages as [ps|].
      * destruct t as [t|].
        -- apply extract_text_spec in X as (Hl & _ & _ & ->).
           assert (Rate.truthy_str (Some t) = true) as ->.
           { unfold Rate.truthy_str. destruct (String.eqb_spec t ""); [subst; simpl in Hl; lia|reflexivity]. }
           intros [= <- _ _]. simpl. split; [lia|]. intros t' c' [= <- <-]. simpl. lia.
        -- apply extract_none_counters in X as ->. intros [= <- _ _]. simpl.
           split; [lia|]. intros t' c' [=].
      * simpl in X. injection X as <- <-. intros [= <- _ _]. simpl. split; [lia|]. intros t' c' [=].
  - intros [= <- _ _]. simpl. split; [lia|]. intros t c' [=].
  - intros [= <- _ _]. simpl. split; [lia|]. intros t c' [=].
Qed.



Lemma extracted_text_normalized_witness :
  match extract_text_from_pdf (Some pdf_pages) client0 with
  | (Some t, c') => (50 <= String.length t)%nat /\ py_strip t = t /\ texts_extracted c' = 1
  | (None, _) => False
  end.
Proof.
  destruct (extract_text_from_pdf (Some pdf_pages) client0) as [[t|] c'] eqn:E.
  - destruct (extracted_text_normalized pdf_pages client0 c' t E) as (H1 & H2 & _ & H4).
    split; [exact H1|]. split; [exact H2|]. rewrite H4. reflexivity.
  - vm_compute in E. discriminate.
Defined.

Lemma pdfs_downloaded_tracks_texts_witness :
  match download_pdf_and_extract_text 1%Q 0%Q (AResp resp200 (Some pdf_pages)) AFail client0 with
  | (Returned (Some t) c', _, _) => pdfs_downloaded c' = 1 /\ texts_extracted c' = 1
  | _ => False
  end.
Proof.
  destruct (download_pdf_and_extract_text 1%Q 0%Q (AResp resp200 (Some pdf_pages)) AFail client0)
    as [[[[t|] c'|c'] sl] n] eqn:E.
  - destruct (pdfs_downloaded_tracks_texts _ _ _ _ _ _ _ _ E) as [_ H].
    destruct (H t c' eq_refl) as (_ & H2 & H3). rewrite H2, H3. split; reflexivity.
  - vm_compute in E. discriminate.
  - vm_compute in E. discriminate.
Defined.



End ClientProofs.

Module PoolProofs.
Import Client ClientProofs ExtraSamples Batch BatchProofs.
Open Scope Q_scope.





End PoolProofs.

Module RateExtraProofs.
Import Rate RateProofs.
Open Scope Q_scope.



Lemma Qle_bool_false a b : Qle_bool a b = false -> b < a.
Proof.
  intros E. apply Qnot_le_lt. intros H. apply Qle_bool_iff in H. congruence.
Qed.

Ltac qcases :=
  repeat match goal with
  | |- context [Qle_bool ?a ?b] =>
      let E := fresh "E" in
      destruct (Qle_bool a b) eqn:E;
      [apply Qle_bool_iff in E|apply Qle_bool_false in E]
  | H : context [Qle_bool ?a ?b] |- _ =>
      let E := fresh "E" in
      destruct (Qle_bool a b) eqn:E;
      [apply Qle_bool_iff in E|apply Qle_bool_false in E]
  end.

Lemma Qmin_proper a b : a == b -> Qmin a max_delay == Qmin b max_delay.
Proof. intros H. unfold Qmin. qcases; lra. Qed.


Definition plain_success (r : response) : Prop :=
  status_code r = 200%Z /\ truthy_str (remaining_header r) = false.

Lemma plain_success_step r s : plain_success r ->
  snd (check_rate_limits r s) =
    if (0 <? consecutive_errors s)%Z then
      set_delay {| is_limited := is_limited s; retry_after := retry_after s;
                   current_delay := current_delay s; consecutive_errors := 0;
                   last_request_time := last_request_time s |}
                (Qmax (current_delay s * (9 # 10)) min_delay)
    else s.
Proof.
  intros [H200 Hq]. unfold check_rate_limits. rewrite H200. simpl.
  unfold analyse_remaining. rewrite Hq. reflexivity.
Qed.

(** X7: a run of plain 200 answers (no remaining-quota header) after errors
    resets [consecutive_errors] to 0 and shrinks the delay once, to
    [max(delay * 0.9, min_delay)]; with no errors it changes nothing. *)
Theorem success_decays_once (rs : list response) (st : rate_limit) :
  Forall plain_success rs -> rs <> [] ->
  let st' := fold_left (fun s r => snd (check_rate_limits r s)) rs st in
  ((0 < consecutive_errors st)%Z ->
     consecutive_errors st' = 0%Z /\
     current_delay st' = Qmax (current_delay st * (9 # 10)) min_delay /\
     retry_after st' = retry_after st /\ is_limited st' = is_limited st) /\
  ((consecutive_errors st <= 0)%Z -> st' = st).
Proof.
  intros Hf Hne. simpl.
  assert (Hfix : forall rs s, Forall plain_success rs -> (consecutive_errors s <= 0)%Z ->
            fold_left (fun s r => snd (check_rate_limits r s)) rs s = s).
  { clear. intros rs. induction rs as [|r rs IH]; intros s Hf Hs; [reflexivity|].
    inversion Hf; subst. simpl. rewrite plain_success_step by assumption.
    destruct (Z.ltb_spec 0 (consecutive_errors s)); [lia|]. apply IH; assumption. }
  destruct rs as [|r rs]; [congruence|]. inversion Hf; subst. simpl.
  rewrite plain_success_step by assumption.
  split.
  - intros Hpos. apply Z.ltb_lt in Hpos as Hb. rewrite Hb.
    rewrite Hfix by (simpl; auto || lia). simpl. auto.
  - intros Hnp. destruct (Z.ltb_spec 0 (consecutive_errors st)); [lia|]. apply Hfix; assumption.
Qed.


Lemma success_decays_once_witness :
  let st' := fold_left (fun s r => snd (check_rate_limits r s))
               [ExtraSamples.resp200; ExtraSamples.resp200] (transport_failure initial) in
  ((0 < consecutive_errors (transport_failure initial))%Z ->
     consecutive_errors st' = 0%Z /\
     current_delay st' = Qmax (current_delay (transport_failure initial) * (9 # 10)) min_delay /\
     retry_after st' = retry_after (transport_failure initial) /\
     is_limited st' = is_limited (transport_failure initial)) /\
  ((consecutive_errors (transport_failure initial) <= 0)%Z -> st' = transport_failure initial).
Proof.
  assert (Hp : plain_success ExtraSamples.resp200) by (split; reflexivity).
  assert (Hf : Forall plain_success [ExtraSamples.resp200; ExtraSamples.resp200])
    by (constructor; [exact Hp|constructor; [exact Hp|constructor]]).
  exact (success_decays_once _ _ Hf ltac:(discriminate)).
Defined.

End RateExtraProofs.

Module FilenameProofs.
Import Batch.

Lemma list_ascii_replace c s :
  list_ascii_of_string (replace_char c s) =
  map (fun c' => if Ascii.eqb c c' then "_"%char else c') (list_ascii_of_string s).
Proof. induction s as [|a s IH]; simpl; [reflexivity|]. rewrite IH. reflexivity. Qed.

Lemma list_ascii_app' (s1 s2 : string) :
  list_ascii_of_string (String.append s1 s2) = list_ascii_of_string s1 ++ list_ascii_of_string s2.
Proof. induction s1 as [|a s1 IH]; simpl; [reflexivity|]. rewrite IH. reflexivity. Qed.

Lemma in_replace c s ch :
  In ch (list_ascii_of_string (replace_char c s)) ->
  ch = "_"%char \/ (In ch (list_ascii_of_string s) /\ ch <> c).
Proof.
  rewrite list_ascii_replace, in_map_iff. intros (c' & <- & Hin).
  destruct (Ascii.eqb_spec c c'); [left; reflexivity|right; split; congruence].
Qed.

Lemma replace_keeps c s ch :
  ch <> c -> In ch (list_ascii_of_string s) -> In ch (list_ascii_of_string (replace_char c s)).
Proof.
  intros Hne Hin. rewrite list_ascii_replace, in_map_iff. exists ch. split; [|exact Hin].
  destruct (Ascii.eqb_spec c ch); congruence.
Qed.

Lemma in_fold_replace (L : list ascii) s ch :
  In ch (list_ascii_of_string (foldl (fun acc c => replace_char c acc) s L)) ->
  ch = "_"%char \/ (In ch (list_ascii_of_string s) /\ ~ In ch L).
Proof.
  revert s. induction L as [|c L IH]; intros s H; simpl in H.
  - right. split; [exact H|]. intros [].
  - destruct (IH _ H) as [->|[H1 H2]]; [left; reflexivity|].
    destruct (in_replace _ _ _ H1) as [->|[H3 H4]]; [left; reflexivity|].
    right. split; [exact H3|]. intros [->|]; [congruence|contradiction].
Qed.

Lemma fold_replace_keeps (L : list ascii) s ch :
  ~ In ch L -> In ch (list_ascii_of_string s) ->
  In ch (list_ascii_of_string (foldl (fun acc c => replace_char c acc) s L)).
Proof.
  revert s. induction L as [|c L IH]; intros s Hn Hin; simpl; [exact Hin|].
  apply IH; [intros H; apply Hn; right; exact H|].
  apply replace_keeps; [intros ->; apply Hn; left; reflexivity|exact Hin].
Qed.

(** X8: [_create_safe_filename] never returns a name containing one of
    the characters of [forbidden_chars] (less-than, greater-than, colon,
    double quote, bar, question mark, star); a slash or backslash occurs in it exactly when it occurs in
    the first 8 characters of a string id. *)
Theorem safe_filename_chars (d : decision) (s : string) :
  create_safe_filename d = Some s ->
  (forall ch, In ch (list_ascii_of_string s) -> ~ In ch forbidden_chars) /\
  (forall i, id d = JStr i -> forall ch, ch = "/"%char \/ ch = "\"%char ->
     In ch (list_ascii_of_string s) <-> In ch (list_ascii_of_string (substring 0 8 i))).
Proof.
  unfold create_safe_filename.
  destruct (case_number d) as [| | | cs | |]; try discriminate. cbn [mbind option_bind].
  intros H. split.
  - destruct (id d); cbn [mbind option_bind] in H; try discriminate;
      injection H as <-; intros ch Hin;
      (destruct (in_fold_replace forbidden_chars _ _ Hin) as [->|[_ Hn]]; [simpl; intuition discriminate|exact Hn]).
  - intros i Hi ch Hch. rewrite Hi in H. cbn [mbind option_bind] in H. injection H as <-.
    assert (Hnf : ~ In ch forbidden_chars) by (destruct Hch as [->| ->]; simpl; intuition discriminate).
    assert (Hnu : ch <> "_"%char) by (destruct Hch as [->| ->]; discriminate).
    split.
    + intros Hin. destruct (in_fold_replace forbidden_chars _ _ Hin) as [?|[Hin' _]]; [contradiction|].
      rewrite list_ascii_app', list_ascii_app' in Hin'. simpl in Hin'.
      apply in_app_or in Hin' as [Hc|[?|Hid]]; [|congruence|exact Hid].
      exfalso. destruct (in_replace _ _ _ Hc) as [?|[Hc' Hne]]; [contradiction|].
      destruct (in_replace _ _ _ Hc') as [?|[_ Hne']]; [contradiction|].
      destruct Hch; contradiction.
    + intros Hin. apply (fold_replace_keeps forbidden_chars); [exact Hnf|].
      rewrite list_ascii_app', list_ascii_app'. simpl. apply in_or_app. right. right. exact Hin.
Qed.

Lemma safe_filename_chars_witness :
  create_safe_filename ExtraSamples.new_entry_decision = Some "4-1001-2401_12_a1/b2_c3"%string /\
  In "/"%char (list_ascii_of_string "4-1001-2401_12_a1/b2_c3").
Proof.
  assert (H : create_safe_filename ExtraSamples.new_entry_decision =
              Some "4-1001-2401_12_a1/b2_c3"%string) by (vm_compute; reflexivity).
  split; [exact H|].
  destruct (safe_filename_chars _ _ H) as [_ H2].
  apply (H2 "a1/b2:c3-d4e5"%string eq_refl "/"%char (or_introl eq_refl)). simpl. tauto.
Defined.

End FilenameProofs.

Module NormalizerExtraProofs.
Import Batch.

Ltac binds_goal :=
  repeat match goal with
  | |- context [mbind _ ?x] =>
      let E := fresh "E" in destruct x eqn:E; cbn [mbind option_bind]
  end.

Ltac binds_in H :=
  repeat match type of H with
  | (?x ≫= _) = _ =>
      let E := fresh "E" in destruct x eqn:E; cbn [mbind option_bind] in H; try discriminate
  | (if ?b then _ else _) = _ =>
      let E := fresh "E" in destruct b eqn:E; try discriminate
  end.

(** X9: a new-API entry is dropped when it lacks one of the keys [pdf], [id],
    [case_number], [court_names], [hearing_date], [result], [instance], when
    its [pdf] lacks [id], [name] or [size], or when [court_names] is not a
    dict. *)
Theorem new_entry_missing_key_dropped (off : Z -> Z) (data : json) :
  (forall k, In k ["pdf"; "id"; "case_number"; "court_names"; "hearing_date"; "result";
                   "instance"]%string ->
     subscript data k = None -> parse_decision_from_json off data "new" = None) /\
  (forall pdf k, subscript data "pdf" = Some pdf -> In k ["id"; "name"; "size"]%string ->
     subscript pdf k = None -> parse_decision_from_json off data "new" = None) /\
  (forall names, subscript data "court_names" = Some names ->
     (forall kvs, names <> JObj kvs) -> parse_decision_from_json off data "new" = None).
Proof.
  unfold parse_decision_from_json. simpl. split; [|split].
  - intros k Hk Hnone. destruct (parse_new data) eqn:P; [|reflexivity]. exfalso.
    unfold parse_new in P. binds_in P.
    simpl in Hk. destruct Hk as [<-|[<-|[<-|[<-|[<-|[<-|[<-|[]]]]]]]]; congruence.
  - intros pdf k Hp Hk Hnone. destruct (parse_new data) eqn:P; [|reflexivity]. exfalso.
    unfold parse_new in P. binds_in P.
    simpl in Hk. destruct Hk as [<-|[<-|[<-|[]]]]; congruence.
  - intros names Hn Hnd. destruct (parse_new data) eqn:P; [|reflexivity]. exfalso.
    unfold parse_new in P. binds_in P.
    match goal with H : subscript data "court_names" = Some ?j |- _ =>
      assert (names = j) by congruence; subst j end.
    destruct names; simpl in *; try discriminate. eapply Hnd. reflexivity.
Qed.


(** X11: an old-API record has a string id and a string pdf id with the
    download URL built from it, instance FIRST, no speaker judge and the
    same court name in both languages; [_create_safe_filename] succeeds on
    it exactly when its case number is a string. *)
Theorem old_record_shape (off : Z -> Z) (data : json) (d : decision) :
  parse_decision_from_json off data "old" = Some d ->
  (exists i, id d = JStr i) /\
  (exists p, pdf_id d = JStr p /\
             pdf_url d = (old_api_base ++ "/api/file/download/" ++ p ++ "/")%string) /\
  instance d = JStr "FIRST" /\ speaker_judge d = JNull /\ court_name_uz d = court_name_ru d /\
  (is_Some (create_safe_filename d) <-> exists cn, case_number d = JStr cn).
Proof.
  unfold parse_decision_from_json. simpl. unfold parse_old. intros H. binds_in H.
  injection H as <-. simpl. split; [eauto|]. split; [eauto|].
  split; [reflexivity|]. split; [reflexivity|]. split; [reflexivity|].
  unfold create_safe_filename. simpl.
  match goal with |- context [if truthy ?c then _ else _] => destruct (truthy c) eqn:T end.
  - match goal with |- context [match ?c with JNull => _ | _ => _ end] => destruct c end;
      simpl; split; intros Hx; try (destruct Hx as [? Hx]; discriminate);
      eauto; exfalso; destruct Hx as [? Hx]; discriminate.
  - simpl. split; intros _; eauto.
Qed.

Lemma new_entry_missing_key_dropped_witness :
  subscript (JObj [("id", JStr "x")]) "pdf" = None /\
  parse_decision_from_json Samples.tashkent_offset (JObj [("id", JStr "x")]) "new" = None /\
  subscript ExtraSamples.new_entry_flat_names "court_names" = Some (JStr "Tashkent") /\
  parse_decision_from_json Samples.tashkent_offset ExtraSamples.new_entry_flat_names "new" = None.
Proof.
  destruct (new_entry_missing_key_dropped Samples.tashkent_offset (JObj [("id", JStr "x")]))
    as [H1 _].
  destruct (new_entry_missing_key_dropped Samples.tashkent_offset
              ExtraSamples.new_entry_flat_names) as (_ & _ & H3).
  split; [reflexivity|]. split; [apply (H1 "pdf"%string); [simpl; auto|reflexivity]|].
  split; [reflexivity|].
  apply (H3 (JStr "Tashkent")); [reflexivity|intros kvs; discriminate].
Defined.

Lemma old_record_shape_witness :
  parse_decision_from_json Samples.tashkent_offset Samples.old_entry "old" =
    Some Samples.old_entry_decision /\
  instance Samples.old_entry_decision = JStr "FIRST" /\
  is_Some (create_safe_filename Samples.old_entry_decision).
Proof.
  assert (H : parse_decision_from_json Samples.tashkent_offset Samples.old_entry "old" =
              Some Samples.old_entry_decision) by (vm_compute; reflexivity).
  destruct (old_record_shape _ _ _ H) as (_ & _ & Hi & _ & _ & Hs).
  split; [exact H|]. split; [exact Hi|]. apply Hs. eexists. reflexivity.
Defined.

End NormalizerExtraProofs.

Module OrchestratorExtraProofs.
Import Batch Orchestrator BatchProofs.

Lemma mapM_None_Exists {A B} (f : A -> option B) (l : list A) :
  Exists (fun x => f x = None) l -> mapM f l = None.
Proof.
  induction 1 as [x l Hx|x l _ IH]; simpl.
  - rewrite Hx. reflexivity.
  - destruct (f x); simpl; [|reflexivity]. rewrite IH. reflexivity.
Qed.

(** X12: with attachment processing enabled, a page whose records include
    one with no usable case number ends the run with an exception right
    after its records are counted in [decisions_found] and its metadata file
    is written: no task of the page starts and the page is not counted in
    [pages_processed]. *)
Theorem unnamed_record_aborts_run (e : env) (period : string) (start : Z) (fpd : json)
  (end_ : Z) (overwrite : bool) (page : Z) (rest : list Z) (v : json) (evf : list event)
  (ds : list decision) (w : world) :
  skip_test overwrite (meta w) period page = false ->
  fetch_page e period start fpd page = (Fetched (Some v), evf) ->
  page_records e period v = Some ds ->
  Exists (fun d => create_safe_filename d = None) ds ->
  exists w', page_loop e period start fpd end_ overwrite true (page :: rest) w = Raised w' /\
    meta w' = <[metadata_file period page := JArr (map to_dict ds)]> (meta w) /\
    pages_processed w' = pages_processed w /\
    decisions_found w' = decisions_found w + Z.of_nat (List.length ds) /\
    log w' = (log w ++ evf) ++ [EMetaWrite (metadata_file period page)].
Proof.
  intros Hskip Hfp Hrec Hex.
  assert (Hne : ds <> []) by (intros ->; inversion Hex).
  assert (Hb : forall outs woks order, download_pdfs_batch page outs woks order ds = None).
  { intros. unfold download_pdfs_batch. rewrite (mapM_None_Exists _ _ Hex). reflexivity. }
  destruct ds as [|d ds0]; [contradiction|].
  eexists. split.
  { simpl. unfold bind at 1, page_step. rewrite Hskip. unfold page_process. rewrite Hfp.
    unfold bind, emit, modify, lift, ret, save_metadata, count_found. simpl. rewrite Hrec.
    simpl. rewrite Hb. reflexivity. }
  split; [reflexivity|split; [reflexivity|split; reflexivity]].
Qed.

(** Effects that change the metadata directory at most at [file]. *)
Definition only_at {A} (file : string) (m : M A) : Prop :=
  forall w f, f <> file -> meta (final_world (m w)) !! f = meta w !! f.

Lemma only_at_bind {A B} file (m : M A) (k : A -> M B) :
  only_at file m -> (forall a, only_at file (k a)) -> only_at file (bind m k).
Proof.
  intros Hm Hk w f Hf. unfold bind. specialize (Hm w f Hf).
  destruct (m w) as [a w1|w1]; simpl in *; [rewrite Hk by exact Hf|]; exact Hm.
Qed.

Lemma only_at_ret {A} file (a : A) : only_at file (ret a).
Proof. intros w f _. reflexivity. Qed.

Lemma only_at_lift {A} file (o : option A) : only_at file (lift o).
Proof. intros w f _. destruct o; reflexivity. Qed.

Lemma only_at_emit file evs : only_at file (emit evs).
Proof. intros w f _. reflexivity. Qed.

Lemma only_at_raise {A} file : only_at file (@raise A).
Proof. intros w f _. reflexivity. Qed.

Lemma only_at_count_found file n : only_at file (count_found n).
Proof. intros w f _. reflexivity. Qed.

Lemma only_at_collect file ds : only_at file (collect ds).
Proof. intros w f _. reflexivity. Qed.

Lemma only_at_pause file e period end_ page : only_at file (pause e period end_ page).
Proof. intros w f _. unfold pause. destruct (_ && _); reflexivity. Qed.

Lemma only_at_count_page file : only_at file count_page.
Proof. intros w f _. reflexivity. Qed.

Lemma only_at_save file ds : only_at file (save_metadata ds file).
Proof. intros w f Hf. simpl. apply lookup_insert_ne. congruence. Qed.

Lemma page_process_only_at e period start fpd end_ download page :
  only_at (metadata_file period page) (page_process e period start fpd end_ download page).
Proof.
  unfold page_process. destruct (fetch_page e period start fpd page) as [pd evf].
  apply only_at_bind; [apply only_at_emit|intros _].
  destruct pd as [[v|]|]; [|apply only_at_ret|apply only_at_raise].
  apply only_at_bind; [apply only_at_lift|intros ds].
  apply only_at_bind; [|intros _; apply only_at_bind;
                        [apply only_at_count_page|intros _; apply only_at_bind;
                          [apply only_at_emit|intros _; apply only_at_pause]]].
  destruct ds as [|d ds]; [apply only_at_ret|]. cbv zeta.
  apply only_at_bind; [apply only_at_count_found|intros _].
  apply only_at_bind; [apply only_at_save|intros _].
  destruct download; [|apply only_at_collect].
  apply only_at_bind; [apply only_at_lift|intros r].
  apply only_at_bind; [apply only_at_collect|intros _; apply only_at_emit].
Qed.

(** Effects that leave the content of [f] as [j] when it was [j]. *)
Definition keeps {A} (f : string) (j : json) (m : M A) : Prop :=
  forall w, meta w !! f = Some j -> meta (final_world (m w)) !! f = Some j.

Lemma keeps_bind {A B} f j (m : M A) (k : A -> M B) :
  keeps f j m -> (forall a, keeps f j (k a)) -> keeps f j (bind m k).
Proof.
  intros Hm Hk w Hw. unfold bind. specialize (Hm w Hw).
  destruct (m w) as [a w1|w1]; simpl in *; [apply Hk|]; exact Hm.
Qed.

Lemma keeps_only_at {A} f j (m : M A) : (forall file, only_at file m) -> keeps f j m.
Proof.
  intros H w Hw. rewrite (H (String "a" f) w f); [exact Hw|].
  clear. induction f as [|c f IH]; [discriminate|]. intros [= -> Heq]. exact (IH Heq).
Qed.

Lemma keeps_page_step e period start fpd end_ download page f j :
  keeps f j (page_step e period start fpd end_ false download page).
Proof.
  intros w Hw. unfold page_step, skip_test. simpl negb. cbn [andb].
  case_bool_decide as Hs; [exact Hw|].
  rewrite (page_process_only_at e period start fpd end_ download page w f); [exact Hw|].
  intros ->. apply Hs. rewrite Hw. eexists. reflexivity.
Qed.

Lemma keeps_page_loop e period start fpd end_ download pages f j :
  keeps f j (page_loop e period start fpd end_ false download pages).
Proof.
  induction pages as [|p ps IH]; simpl.
  - intros w Hw. exact Hw.
  - apply keeps_bind; [apply keeps_page_step|intros _; exact IH].
Qed.

Lemma keeps_run_section e period mp download start endp f j :
  keeps f j (run_section e period mp download false start endp).
Proof.
  unfold run_section.
  apply keeps_bind; [apply keeps_only_at; intros; apply only_at_emit|intros _].
  destruct (first_fetch e period) as [[fpd|]|];
    [|apply keeps_only_at; intros; apply only_at_emit
     |apply keeps_only_at; intros; apply only_at_raise].
  destruct (negb (truthy fpd)); [apply keeps_only_at; intros; apply only_at_emit|].
  do 4 (apply keeps_bind; [apply keeps_only_at; intros; apply only_at_lift|intros ?]).
  destruct (_ && _); [apply keeps_only_at; intros; apply only_at_emit|].
  destruct (_ <=? _); [apply keeps_only_at; intros; apply only_at_emit|].
  apply keeps_page_loop.
Qed.

Lemma keeps_run_sections e periods mp download start endp f j :
  keeps f j (run_sections e periods mp download false start endp).
Proof.
  induction periods as [|p ps IH]; simpl.
  - intros w Hw. exact Hw.
  - apply keeps_bind; [apply keeps_run_section|intros _; exact IH].
Qed.

(** X13: without [overwrite_files], a run never changes a metadata file
    that existed when it started, whether it returns or raises. *)
Theorem existing_metadata_never_overwritten (e : env) (section : string)
  (mp : option Z) (download : bool) (start : Z) (endp : option Z) (w : world)
  (f : string) (j : json) :
  meta w !! f = Some j ->
  meta (final_world (parse_all_decisions e section mp download start endp false w)) !! f
    = Some j.
Proof.
  revert w. unfold parse_all_decisions.
  apply keeps_bind; [apply keeps_only_at; intros; apply only_at_lift|intros ps].
  apply keeps_bind; [apply keeps_run_sections|intros _].
  intros w Hw. exact Hw.
Qed.

(** [decisions_found] minus the number of collected records. *)
Definition found_gap (w : world) : Z :=
  decisions_found w - Z.of_nat (List.length (all_decisions w)).

Definition keeps_gap {A} (m : M A) : Prop :=
  forall w a w', m w = Ok a w' -> found_gap w' = found_gap w.

Lemma keeps_gap_bind {A B} (m : M A) (k : A -> M B) :
  keeps_gap m -> (forall a, keeps_gap (k a)) -> keeps_gap (bind m k).
Proof.
  intros Hm Hk w b w'. unfold bind. destruct (m w) as [a w1|w1] eqn:E; [|discriminate].
  intros H. rewrite (Hk a w1 b w' H). exact (Hm w a w1 E).
Qed.

Lemma keeps_gap_lift_bind {A B} (o : option A) (k : A -> M B) :
  (forall a, o = Some a -> keeps_gap (k a)) -> keeps_gap (bind (lift o) k).
Proof.
  intros Hk w b w'. unfold bind, lift. destruct o as [a|]; [|discriminate].
  exact (Hk a eq_refl w b w').
Qed.

Lemma keeps_gap_modify (f : world -> world) :
  (forall w, decisions_found (f w) = decisions_found w /\ all_decisions (f w) = all_decisions w) ->
  keeps_gap (modify f).
Proof.
  intros H w a w' [= _ <-]. unfold found_gap. destruct (H w) as [-> ->]. reflexivity.
Qed.

Lemma keeps_gap_ret {A} (a : A) : keeps_gap (ret a).
Proof. intros w b w' [= _ <-]. reflexivity. Qed.

Lemma keeps_gap_raise {A} : keeps_gap (@raise A).
Proof. intros w b w' H. discriminate H. Qed.

Lemma keeps_gap_lift {A} (o : option A) : keeps_gap (lift o).
Proof. destruct o; [apply keeps_gap_ret|apply keeps_gap_raise]. Qed.

Lemma keeps_gap_emit evs : keeps_gap (emit evs).
Proof. apply keeps_gap_modify. intros. split; reflexivity. Qed.

Lemma keeps_gap_pause e period end_ page : keeps_gap (pause e period end_ page).
Proof. unfold pause. destruct (_ && _); [apply keeps_gap_raise|apply keeps_gap_ret]. Qed.

Ltac gap_trivial :=
  first [apply keeps_gap_lift|apply keeps_gap_ret|apply keeps_gap_raise|apply keeps_gap_emit
        |apply keeps_gap_pause|apply keeps_gap_modify; intros; split; reflexivity].

Lemma download_pdfs_batch_length page outs woks order ds r :
  download_pdfs_batch page outs woks order ds = Some r -> List.length (fst r) = List.length ds.
Proof.
  unfold download_pdfs_batch. destruct (mapM create_safe_filename ds); simpl; [|discriminate].
  intros [= <-]. apply run_order_length.
Qed.

Lemma keeps_gap_page_process e period start fpd end_ download page :
  keeps_gap (page_process e period start fpd end_ download page).
Proof.
  unfold page_process. destruct (fetch_page e period start fpd page) as [pd evf].
  apply keeps_gap_bind; [gap_trivial|intros _].
  destruct pd as [[v|]|]; [|gap_trivial|gap_trivial].
  apply keeps_gap_bind; [gap_trivial|intros ds].
  apply keeps_gap_bind;
    [|intros _; apply keeps_gap_bind;
      [gap_trivial|intros _; apply keeps_gap_bind; [gap_trivial|intros _; gap_trivial]]].
  destruct ds as [|d ds0]; [gap_trivial|]. cbv zeta.
  intros w a w'. unfold bind, count_found, save_metadata, collect, emit, modify, lift, ret.
  cbn -[download_pdfs_batch]. destruct download.
  - destruct (download_pdfs_batch _ _ _ _ _) as [r|] eqn:Hb; [|discriminate].
    intros [= _ <-]. unfold found_gap. cbn -[download_pdfs_batch].
    rewrite length_app, (download_pdfs_batch_length _ _ _ _ _ _ Hb). simpl. lia.
  - intros [= _ <-]. unfold found_gap. simpl. rewrite length_app. simpl. lia.
Qed.

Lemma keeps_gap_page_step e period start fpd end_ overwrite download page :
  keeps_gap (page_step e period start fpd end_ overwrite download page).
Proof.
  intros w a w'. unfold page_step. destruct (skip_test _ _ _ _).
  - exact (keeps_gap_emit _ w a w').
  - exact (keeps_gap_page_process e period start fpd end_ download page w a w').
Qed.

Lemma keeps_gap_page_loop e period start fpd end_ overwrite download pages :
  keeps_gap (page_loop e period start fpd end_ overwrite download pages).
Proof.
  induction pages as [|p ps IH]; simpl; [gap_trivial|].
  apply keeps_gap_bind; [apply keeps_gap_page_step|intros _; exact IH].
Qed.

Lemma keeps_gap_run_sections e periods mp download overwrite start endp :
  keeps_gap (run_sections e periods mp download overwrite start endp).
Proof.
  induction periods as [|p ps IH]; simpl; [gap_trivial|].
  apply keeps_gap_bind; [|intros _; exact IH].
  unfold run_section.
  apply keeps_gap_bind; [gap_trivial|intros _].
  destruct (first_fetch e p) as [[fpd|]|]; [|gap_trivial|gap_trivial].
  destruct (negb (truthy fpd)); [gap_trivial|].
  do 4 (apply keeps_gap_bind; [gap_trivial|intros ?]).
  destruct (_ && _); [gap_trivial|].
  destruct (_ <=? _); [gap_trivial|].
  apply keeps_gap_page_loop.
Qed.

(** X14: when a run returns, [decisions_found] has grown by exactly the
    number of records it returns. *)
Theorem decisions_found_matches_result (e : env) (section : string) (mp : option Z)
  (download : bool) (start : Z) (endp : option Z) (overwrite : bool)
  (w w' : world) (ds : list decision) :
  all_decisions w = [] ->
  parse_all_decisions e section mp download start endp overwrite w = Ok ds w' ->
  decisions_found w' = decisions_found w + Z.of_nat (List.length ds).
Proof.
  intros Hnil Hrun.
  assert (Hk : keeps_gap (parse_all_decisions e section mp download start endp overwrite)).
  { unfold parse_all_decisions. apply keeps_gap_lift_bind. intros ps _.
    apply keeps_gap_bind; [apply keeps_gap_run_sections|intros _].
    intros w0 a w0' [= _ <-]. reflexivity. }
  pose proof (Hk w ds w' Hrun) as Hg.
  assert (Hds : ds = all_decisions w').
  { revert Hrun. unfold parse_all_decisions, bind, lift.
    destruct (if String.eqb section "new" then _ else _) as [ps|]; [|discriminate].
    unfold ret. destruct (run_sections _ _ _ _ _ _ _ _); [|discriminate].
    intros H. injection H as <- <-. reflexivity. }
  unfold found_gap in Hg. rewrite Hnil in Hg.
  rewrite <- Hds in Hg. simpl in Hg. lia.
Qed.

(** Effects that raise [pages_processed] by between 0 and [n]. *)
Definition counts_upto {A} (n : Z) (m : M A) : Prop :=
  forall w, 0 <= pages_processed (final_world (m w)) - pages_processed w <= n.

Lemma counts_upto_bind {A B} n1 n2 (m : M A) (k : A -> M B) :
  0 <= n2 -> counts_upto n1 m -> (forall a, counts_upto n2 (k a)) ->
  counts_upto (n1 + n2) (bind m k).
Proof.
  intros Hn Hm Hk w. unfold bind. specialize (Hm w).
  destruct (m w) as [a w1|w1]; simpl in *; [specialize (Hk a w1)|]; lia.
Qed.

Lemma counts_upto_same {A} (m : M A) :
  (forall w, pages_processed (final_world (m w)) = pages_processed w) -> counts_upto 0 m.
Proof. intros H w. rewrite H. lia. Qed.

Lemma counts_upto_lift {A} (o : option A) : counts_upto 0 (lift o).
Proof. intros w. destruct o; simpl; lia. Qed.

Ltac pp_same := first [apply counts_upto_lift|apply counts_upto_same; intros; reflexivity].

Lemma counts_upto_pause e period end_ page : counts_upto 0 (pause e period end_ page).
Proof. intros w. unfold pause. destruct (_ && _); simpl; lia. Qed.

Lemma counts_upto_page_step e period start fpd end_ overwrite download page :
  counts_upto 1 (page_step e period start fpd end_ overwrite download page).
Proof.
  intros w. unfold page_step. destruct (skip_test _ _ _ _); [simpl; lia|].
  revert w. unfold page_process. destruct (fetch_page e period start fpd page) as [pd evf].
  change 1 with (0 + 1). apply counts_upto_bind; [lia|pp_same|intros _].
  destruct pd as [[v|]|]; [|intros w; simpl; lia|intros w; simpl; lia].
  change 1 with (0 + 1). apply counts_upto_bind; [lia|pp_same|intros ds].
  change 1 with (0 + 1). apply counts_upto_bind; [lia| |intros _].
  - destruct ds as [|d ds]; [pp_same|]. cbv zeta.
    change 0 with (0 + 0). apply counts_upto_bind; [lia|pp_same|intros _].
    change 0 with (0 + 0). apply counts_upto_bind; [lia|pp_same|intros _].
    destruct download; [|pp_same].
    change 0 with (0 + 0). apply counts_upto_bind; [lia|pp_same|intros r].
    change 0 with (0 + 0). apply counts_upto_bind; [lia|pp_same|intros _; pp_same].
  - change 1 with (1 + 0). apply counts_upto_bind; [lia| |intros _].
    + intros w. simpl. lia.
    + change 0 with (0 + 0). apply counts_upto_bind; [lia|pp_same|intros _].
      apply counts_upto_pause.
Qed.

(** X15: a page loop raises [pages_processed] by at least 0 and at most the
    number of pages in its range. *)
Theorem pages_processed_bounded (e : env) (period : string) (start : Z) (fpd : json)
  (end_ : Z) (overwrite download : bool) (pages : list Z) (w : world) :
  pages_processed w <=
    pages_processed (final_world (page_loop e period start fpd end_ overwrite download pages w))
  <= pages_processed w + Z.of_nat (List.length pages).
Proof.
  enough (H : counts_upto (Z.of_nat (List.length pages))
                (page_loop e period start fpd end_ overwrite download pages))
    by (specialize (H w); lia).
  induction pages as [|p ps IH]; simpl.
  - intros w'. simpl. lia.
  - rewrite Nat2Z.inj_succ, <- Z.add_1_l.
    apply counts_upto_bind; [lia|apply counts_upto_page_step|intros _; exact IH].
Qed.

Lemma unnamed_record_aborts_run_witness :
  exists w', page_loop ExtraSamples.env_int_case "old" 0 ExtraSamples.old_page_int_case
               3 false true [1; 2] Samples.empty_world = Raised w' /\
             pages_processed w' = 0.
Proof.
  destruct (unnamed_record_aborts_run ExtraSamples.env_int_case "old" 0
              ExtraSamples.old_page_int_case 3 false 1 [2] ExtraSamples.old_page_int_case
              [EFetch "old" 1] ExtraSamples.int_case_records Samples.empty_world
              ltac:(vm_compute; reflexivity) ltac:(vm_compute; reflexivity)
              ltac:(vm_compute; reflexivity)
              ltac:(apply Exists_cons_tl, Exists_cons_hd; vm_compute; reflexivity))
    as (w' & H1 & _ & H3 & _ & _).
  exists w'. split; [exact H1|]. rewrite H3. reflexivity.
Defined.

Lemma existing_metadata_never_overwritten_witness :
  meta (final_world (parse_all_decisions Samples.env_ok "old" None true 0 None false
                       ExtraSamples.world_page0_written)) !! metadata_file "old" 0 =
    Some (JArr []) /\
  is_Some (meta (final_world (parse_all_decisions Samples.env_ok "old" None true 0 None false
                                ExtraSamples.world_page0_written)) !! metadata_file "old" 1).
Proof.
  split.
  - apply existing_metadata_never_overwritten. vm_compute. reflexivity.
  - vm_compute. eexists. reflexivity.
Defined.

Lemma decisions_found_matches_result_witness :
  all_decisions Samples.empty_world = [] /\
  match parse_all_decisions Samples.env_ok "old" None true 0 None false Samples.empty_world with
  | Ok ds w' => decisions_found w' = decisions_found Samples.empty_world + Z.of_nat (List.length ds)
                /\ List.length ds = 3%nat
  | Raised _ => False
  end.
Proof.
  split; [reflexivity|].
  destruct (parse_all_decisions Samples.env_ok "old" None true 0 None false Samples.empty_world)
    as [ds w'|w'] eqn:E.
  - split; [exact (decisions_found_matches_result _ _ _ _ _ _ _ Samples.empty_world _ _ eq_refl E)|].
    vm_compute in E. injection E as <- _. reflexivity.
  - vm_compute in E. discriminate.
Defined.

End OrchestratorExtraProofs.
